(** * The nroff writer of xml2rfc: escaping, indentation tracking,
      block rendering and pagination

    A shallow embedding of [trunk/cli/xml2rfc/writers/nroff.py].  The writer
    object becomes a record that is threaded through the methods; a method
    that can raise (an index into an empty string) returns [None].  Integers
    are [Z], buffer offsets and lengths are [nat], lines are [string]s, the
    break-hint ledger and the attributes of an element are [gmap]s.

    The file has three parts: the model of the source, the vocabulary in
    which the properties are stated, and the properties themselves. *)

From Stdlib Require Import ZArith Lia Bool Ascii.
From stdpp Require Import gmap strings list fin_maps pretty.

(** * Part 1: the model of the source *)

(** ** Python string primitives *)

Module Py.

(** [str(n)] on an integer: decimal digits, with a leading minus sign. *)
Definition str (n : Z) : string := pretty n.

(** [len(s)] as an integer. *)
Definition len (s : string) : Z := Z.of_nat (String.length s).

(** The characters removed by [strip], [lstrip] and [rstrip] without
    argument on a byte string: space, tab, newline, carriage return,
    vertical tab and form feed. *)
Definition is_space (c : ascii) : bool :=
  match nat_of_ascii c with
  | 32 | 9 | 10 | 13 | 11 | 12 => true
  | _ => false
  end.

Fixpoint lstrip (s : string) : string :=
  match s with
  | EmptyString => EmptyString
  | String c s' => if is_space c then lstrip s' else s
  end.

Fixpoint rstrip (s : string) : string :=
  match s with
  | EmptyString => EmptyString
  | String c s' =>
      match rstrip s' with
      | EmptyString => if is_space c then EmptyString else String c EmptyString
      | r => String c r
      end
  end.

Definition strip (s : string) : string := rstrip (lstrip s).

(** [s.startswith(p)]. *)
Fixpoint startswith (s p : string) {struct p} : bool :=
  match p, s with
  | EmptyString, _ => true
  | String a p', String b s' => Ascii.eqb a b && startswith s' p'
  | String _ _, EmptyString => false
  end.

(** [sub in s] for strings. *)
Definition contains (sub s : string) : bool :=
  match String.index 0 sub s with
  | Some _ => true
  | None => false
  end.

(** Truth value of a string: the empty string is false. *)
Definition truthy (s : string) : bool :=
  match s with
  | EmptyString => false
  | String _ _ => true
  end.

End Py.

(** ** Line-start escaping *)

Definition nroff_linestart_meta : list ascii := ["'"%char; "."%char].

(** The function falls off its end, returning Python's [None], when the line
    starts with neither character. *)
Definition nroff_escape_linestart (line : string) : option string :=
  if Py.startswith line "'" then Some ("\" +:+ line)
  else if Py.startswith line "." then Some ("\&" +:+ line)
  else None.

(** The test-and-escape idiom of [write_line] and [write_text]:
    [if s[0] in nroff_linestart_meta: s = nroff_escape_linestart(s)].
    Indexing the empty string raises. *)
Definition escape_if_meta (s : string) : option string :=
  match s with
  | EmptyString => None
  | String c _ =>
      if bool_decide (c ∈ nroff_linestart_meta)
      then nroff_escape_linestart s
      else Some s
  end.

(** ** The writer object *)

Record Item := {
  counter : string;
  title : string;
  autoName : string
}.

Record Xref := {
  attrib : gmap string string;
  text : option string
}.

(** Modelled from the spec: the settings bag of the writer, [self.pis] in
    the source, whose table is built outside this file.  It holds the
    editing mode and the automatic-break mode; a mode is on when its value
    is ['yes']. *)
Record Pis := {
  editing : string;
  autobreaks : string
}.

(** Modelled from the spec: the default cross-reference format of the
    settings bag, [self.defaults['xref_format']] in the source. *)
Record Defaults := {
  xref_format : string
}.

Record Writer := {
  buf : list string;
  output : list string;
  break_hints : gmap nat (Z * string);
  curr_indent : Z;
  edit_counter : Z;
  pis : Pis;
  defaults : Defaults;
  toc : list string;
  width : Z
}.

Definition set_buf (b : list string) (w : Writer) : Writer :=
  {| buf := b; output := output w; break_hints := break_hints w;
     curr_indent := curr_indent w; edit_counter := edit_counter w;
     pis := pis w; defaults := defaults w; toc := toc w; width := width w |}.

Definition set_output (o : list string) (w : Writer) : Writer :=
  {| buf := buf w; output := o; break_hints := break_hints w;
     curr_indent := curr_indent w; edit_counter := edit_counter w;
     pis := pis w; defaults := defaults w; toc := toc w; width := width w |}.

Definition set_break_hints (h : gmap nat (Z * string)) (w : Writer) : Writer :=
  {| buf := buf w; output := output w; break_hints := h;
     curr_indent := curr_indent w; edit_counter := edit_counter w;
     pis := pis w; defaults := defaults w; toc := toc w; width := width w |}.

Definition set_curr_indent (a : Z) (w : Writer) : Writer :=
  {| buf := buf w; output := output w; break_hints := break_hints w;
     curr_indent := a; edit_counter := edit_counter w;
     pis := pis w; defaults := defaults w; toc := toc w; width := width w |}.

Definition set_edit_counter (c : Z) (w : Writer) : Writer :=
  {| buf := buf w; output := output w; break_hints := break_hints w;
     curr_indent := curr_indent w; edit_counter := c;
     pis := pis w; defaults := defaults w; toc := toc w; width := width w |}.

(** The state set up by [__init__] for a page of [width] columns:
    empty buffers and ledger, [curr_indent = 0]. *)
Definition init (width : Z) (pis : Pis) (defaults : Defaults)
    (toc : list string) : Writer :=
  {| buf := []; output := []; break_hints := ∅; curr_indent := 0;
     edit_counter := 0; pis := pis; defaults := defaults; toc := toc;
     width := width |}.

(** ** Methods as state transformers that may raise *)

Definition M (A : Type) : Type := Writer → option (A * Writer).

Definition ret {A} (a : A) : M A := λ w, Some (a, w).

Definition bind {A B} (m : M A) (k : A → M B) : M B :=
  λ w, match m w with
       | Some (a, w') => k a w'
       | None => None
       end.

Definition get : M Writer := λ w, Some (w, w).

Definition modify (f : Writer → Writer) : M unit := λ w, Some (tt, f w).

(** Lift a pure computation that may raise. *)
Definition lift {A} (o : option A) : M A :=
  λ w, match o with Some a => Some (a, w) | None => None end.

Declare Scope writer_scope.
Delimit Scope writer_scope with writer.
Notation "x <~ m ;; k" := (bind m (λ x, k))
  (at level 100, m at next level, right associativity) : writer_scope.
Notation "m ;;; k" := (bind m (λ _, k))
  (at level 100, right associativity) : writer_scope.
Local Open Scope writer_scope.

(** [self.buf.append(string)]: a control line, no escaping. *)
Definition write_nroff (s : string) : M unit :=
  modify (λ w, set_buf (buf w ++ [s]) w).

(** Writes an indent command if it differs from the last. *)
Definition _indent (amount : Z) : M unit :=
  w <~ get ;;
  if bool_decide (amount ≠ curr_indent w)
  then write_nroff (".in " +:+ Py.str amount) ;;;
       modify (set_curr_indent amount)
  else ret tt.

Definition _vspace (num : Z) : M unit :=
  write_nroff (".sp " +:+ Py.str num).

(** A line with no nroff commands. *)
Definition write_line (s : string) : M unit :=
  s' <~ lift (escape_if_meta s) ;;
  modify (λ w, set_buf (buf w ++ [s']) w).

(** ** The block renderer *)

(** [write_text] writes to its [buf] argument, which is either the writer's
    own buffer or a list owned by the caller.  [None] stands for the writer's
    buffer, [Some l] for a caller's list whose content is [l]; the method
    returns the caller's list as it has left it. *)
Definition target_extend (ext : option (list string)) (ls : list string)
    : M (option (list string)) :=
  match ext with
  | Some l => ret (Some (l ++ ls))
  | None => modify (λ w, set_buf (buf w ++ ls) w) ;;; ret None
  end.

(** Modelled from the spec: the parent writer's [_lb], which renders the
    leading blank line of a block.  It appends one line to the buffer it is
    given: a plain blank line, or the filler text of an edit mark. *)
Definition _lb (ext : option (list string)) (text : string)
    : M (option (list string)) :=
  target_extend ext [text].

(** [sub_indent and indent + sub_indent or indent + len(bullet)] *)
Definition full_indent (indent sub_indent : Z) (bullet : string) : Z :=
  if bool_decide (sub_indent = 0)%Z then (indent + Py.len bullet)%Z
  else if bool_decide (indent + sub_indent = 0)%Z
       then (indent + Py.len bullet)%Z
       else (indent + sub_indent)%Z.

(** [bullet and len(bullet.strip()) > 0] *)
Definition has_bullet (bullet : string) : bool :=
  Py.truthy bullet && bool_decide (0 < Py.len (Py.strip bullet))%Z.

Section Renderer.

(** The external wrapping routine [self.wrapper.wrap(string,
    break_on_hyphens=False, fix_doublespace, fix_sentence_endings)]. *)
Variable wrap : string → bool → bool → list string.

(** The keyword arguments [wrap_urls] and [source_line] are not read by
    the body and are left out. *)
Definition write_text (txt : string) (indent sub_indent : Z)
    (bullet align : string) (leading_blankline : bool)
    (buf_arg : option (list string))
    (strip edit fix_sentence_endings : bool) : M (option (list string)) :=
  (* if not buf: buf = self.buf *)
  let ext := match buf_arg with
             | Some (l :: ls) => Some (l :: ls)
             | _ => None
             end in
  w0 <~ get ;;
  let begin := length (buf w0) in
  ext <~ (if leading_blankline then
            if edit && String.eqb (editing (pis w0)) "yes" then
              modify (λ w, set_edit_counter (edit_counter w + 1)%Z w) ;;;
              w1 <~ get ;;
              _lb ext ("<" +:+ Py.str (edit_counter w1) +:+ ">")
            else _lb ext ""
          else ret ext) ;;
  ps <~ (if Py.truthy txt then
           let txt := if strip then Py.lstrip txt else txt in
           let '(txt, fix_doublespace) :=
             if has_bullet bullet then (bullet +:+ txt, false)
             else (txt, true) in
           par <~ lift (mapM escape_if_meta
                          (wrap txt fix_doublespace fix_sentence_endings)) ;;
           (if String.eqb align "center"
            then write_nroff (".ce " +:+ Py.str (Z.of_nat (length par)))
            else _indent (full_indent indent sub_indent bullet)) ;;;
           ret (par, txt)
         else ret ([], txt)) ;;
  let '(par, txt) := ps in
  par <~ (if has_bullet bullet then
            write_nroff (".ti " +:+ Py.str indent) ;;;
            ret (if Py.truthy txt then par else par ++ [bullet])
          else ret par) ;;
  ext <~ target_extend ext par ;;
  w2 <~ get ;;
  let end_ := length (buf w2) in
  modify (λ w, set_break_hints
                 (<[begin := ((Z.of_nat end_ - Z.of_nat begin)%Z, "txt")]>
                    (break_hints w)) w) ;;;
  ret ext.

Definition write_title (text : string) (docName : string) : M unit :=
  _lb None "" ;;;
  write_text text 0 0 "" "center" false None true false true ;;;
  if Py.truthy docName
  then write_text docName 0 0 "" "center" false None true false true ;;;
       ret tt
  else ret tt.

End Renderer.

(** Wrap a nofill/fill block around the table of contents. *)
Definition _post_write_toc (tmpbuf : list string) : M (list string) :=
  w <~ get ;;
  ret (tmpbuf ++ [".ti 0"; "Table of Contents"; ""; ".in 3"; ".nf"]
         ++ toc w ++ [".fi"]).

Definition write_heading (text bullet : string) : M unit :=
  _lb None "" ;;;
  let bullet := if Py.truthy bullet then bullet +:+ "  " else bullet in
  w <~ get ;;
  (if bool_decide (Py.len (bullet +:+ text) > width w - 3)%Z
   then write_nroff (".in " +:+ Py.str (Py.len bullet))
   else ret tt) ;;;
  write_nroff ".ti 0" ;;;
  write_line (bullet +:+ text).

(** ** Cross references *)

Section Xrefs.

(** The parent's anchor index, [self._getItemByAnchor]. *)
Variable _getItemByAnchor : string → option Item.

(** The text an xref stands for, before any decoration. *)
Definition xref_target_text (target format : string) : string :=
  match _getItemByAnchor target with
  | None => "[" +:+ target +:+ "]"
  | Some item =>
      if String.eqb format "none" then "[" +:+ target +:+ "]"
      else if String.eqb format "counter" then counter item
      else if String.eqb format "title" then title item
      else autoName item
  end.

(** Prefix a text that holds a dot or a hyphen with [\%]. *)
Definition xref_keep (target_text : string) : string :=
  if Py.contains "." target_text || Py.contains "-" target_text
  then "\%" +:+ target_text
  else target_text.

Definition _expand_xref (xref : Xref) : M string :=
  w <~ get ;;
  let target := default "" (attrib xref !! "target") in
  let format := default (xref_format (defaults w))
                  (attrib xref !! "format") in
  let target_text := xref_target_text target format in
  match text xref with
  | Some (String c s) =>
      let target_text :=
        if negb (Py.startswith target_text "[")
        then "(" +:+ target_text +:+ ")"
        else xref_keep target_text in
      ret (Py.rstrip (String c s) +:+ " " +:+ target_text)
  | _ => ret (xref_keep target_text)
  end.

End Xrefs.

(** ** Pagination *)

Definition page_maxlen : Z := 55.

(** The condition under which a hinted line is preceded by a page break. *)
Definition break_wanted (w : Writer) (page_len : Z) (line : string)
    (hint : Z * string) : bool :=
  let available := (page_maxlen - page_len)%Z in
  let '(needed, text_type) := hint in
  let '(available, needed) :=
    if String.eqb (Py.strip line) ""
    then (available - 1, needed - 1)%Z
    else (available, needed) in
  String.eqb text_type "break"
  || (String.eqb text_type "raw" && bool_decide (needed > available)%Z)
  || (String.eqb (autobreaks (pis w)) "yes"
      && bool_decide (needed > available)%Z
      && (bool_decide (needed - available < 2)%Z
          || bool_decide (available < 2)%Z)).

(** The hint-driven part of one iteration of the loop: the state is the
    output written so far and the line count of the current page. *)
Definition hint_step (w : Writer) (line_num : nat) (line : string)
    (st : list string * Z) : list string * Z :=
  match break_hints w !! line_num with
  | Some hint =>
      if break_wanted w st.2 line hint then (st.1 ++ [".bp"], 0%Z) else st
  | None => st
  end.

(** The capacity check and the emission of the line. *)
Definition emit_step (line : string) (st : list string * Z)
    : list string * Z :=
  let st := if bool_decide (st.2 + 1 > 55)%Z
            then (st.1 ++ [".bp"], 0%Z) else st in
  (st.1 ++ [line], (st.2 + 1)%Z).

Definition page_step (w : Writer) (line_num : nat) (line : string)
    (st : list string * Z) : list string * Z :=
  emit_step line (hint_step w line_num line st).

(** [for line_num, line in enumerate(self.buf)], from [line_num] on. *)
Fixpoint paginate (w : Writer) (line_num : nat) (lines : list string)
    (st : list string * Z) : list string * Z :=
  match lines with
  | [] => st
  | line :: rest => paginate w (S line_num) rest (page_step w line_num line st)
  end.

Definition post_rendering : M unit :=
  modify (λ w, set_output (paginate w 0 (buf w) (output w, 0%Z)).1 w).

(** ** The rest of the writer *)

(** [re.sub(r'http://', r'\%http://', text)]: the text is scanned from the
    left; where [http://] starts, the replacement is written and the scan
    goes on behind the match.  [skip] counts the characters of a match that
    are still to be copied. *)
Fixpoint sub_http (skip : nat) (s : string) : string :=
  match s with
  | EmptyString => EmptyString
  | String c s' =>
      match skip with
      | S k => String c (sub_http k s')
      | O =>
          if Py.startswith s "http://"
          then "\%" +:+ String c (sub_http 6 s')
          else String c (sub_http 0 s')
      end
  end.

Definition urlkeep (text : string) : string := sub_http 0 text.

Section Paragraphs.

Variable wrap : string → bool → bool → list string.

(** Write a generic paragraph of text.  Used for boilerplate. *)
Definition write_paragraph (text align : string) : M unit :=
  let text := urlkeep text in
  write_text wrap text 3 0 "" align true None true false true ;;;
  ret tt.

End Paragraphs.

Section RawBlocks.

(** The parent's [PaginatedTextRfcWriter.write_raw], with the arguments the
    override passes on: text, indent, align, blanklines, delimiter and
    leading_blankline. *)
Variable parent_write_raw :
  string → Z → string → Z → option string → bool → M unit.

(** Wrap in a no fill block.  The keyword argument [source_line] is only
    passed on and is left out. *)
Definition write_raw (text : string) (indent : Z) (align : string)
    (blanklines : Z) (delimiter : option string) (leading_blankline : bool)
    : M unit :=
  _indent indent ;;;
  write_nroff ".nf" ;;;
  parent_write_raw text 0 align blanklines delimiter leading_blankline ;;;
  write_nroff ".fi".

End RawBlocks.

(** *** The document tree *)

(** An element of the tree [self.r]: its text, its tail and its children;
    an absent text or tail is [None]. *)
#[warnings="-register-all"] Inductive Element :=
  | Elem (etext etail : option string) (children : list Element).

(** [s.replace('\\', '\\\\')]: every backslash becomes two. *)
Fixpoint double_backslashes (s : string) : string :=
  match s with
  | EmptyString => EmptyString
  | String c s' =>
      if Ascii.eqb c "\" then String "\" (String "\" (double_backslashes s'))
      else String c (double_backslashes s')
  end.

(** [if field: field = field.replace('\\', '\\\\')] *)
Definition escape_field (field : option string) : option string :=
  match field with
  | Some (String c s) => Some (double_backslashes (String c s))
  | _ => field
  end.

(** Escape backslashes in the text, for every element of the tree. *)
Fixpoint pre_indexing (r : Element) : Element :=
  match r with
  | Elem etext etail children =>
      Elem (escape_field etext) (escape_field etail)
        (map pre_indexing children)
  end.

(** *** The nroff header *)

(** The double quote, as a string. *)
Definition dquote : string := String (ascii_of_nat 34) EmptyString.

(** The line feed, as a string. *)
Definition newline : string := String (ascii_of_nat 10) EmptyString.

(** [comment_header % (version, time)] *)
Definition comment_header (version time : string) : string :=
  ".\" +:+ dquote +:+ " automatically generated by xml2rfc v" +:+ version
    +:+ " on " +:+ time.

Definition settings_header : list string :=
  [ ".pl 10.0i";      (* Page length *)
    ".po 0";          (* Page offset *)
    ".ll 7.2i";       (* Line length *)
    ".lt 7.2i";       (* Title length *)
    ".nr LL 7.2i";    (* Printer line length *)
    ".nr LT 7.2i";    (* Printer title length *)
    ".hy 0";          (* Disable hyphenation *)
    ".ad l" ].        (* Left margin adjustment only *)

(** The header and footer strings that the parent's [pre_rendering] leaves
    in the attributes of the writer. *)
Record Headers := {
  left_header : string;
  center_header : string;
  right_header : string;
  left_footer : string;
  center_footer : string
}.

(** [sep.join(parts)] *)
Fixpoint join (sep : string) (parts : list string) : string :=
  match parts with
  | [] => EmptyString
  | [p] => p
  | p :: rest => p +:+ sep +:+ join sep rest
  end.

Section Header.

(** The parent's [PaginatedTextRfcWriter.pre_rendering], which constructs
    the RFC header and footer. *)
Variable parent_pre_rendering : M Headers.

(** Inserts an nroff header into the buffer.  [VERSION] is the version
    tuple of the package and [time] the formatted time stamp. *)
Definition pre_rendering (VERSION : list Z) (time : string) : M unit :=
  h <~ parent_pre_rendering ;;
  write_line (comment_header (join "." (map Py.str VERSION)) time) ;;;
  _lb None "" ;;;
  modify (λ w, set_buf (buf w ++ settings_header) w) ;;;
  write_nroff (".ds LH " +:+ left_header h) ;;;
  write_nroff (".ds CH " +:+ center_header h) ;;;
  write_nroff (".ds RH " +:+ right_header h) ;;;
  write_nroff (".ds LF " +:+ left_footer h) ;;;
  write_nroff (".ds CF " +:+ center_footer h) ;;;
  write_nroff ".ds RF FORMFEED[Page %]".

End Header.

(** *** Writing the output *)

(** The characters that [line.rstrip(" \t")] removes. *)
Definition is_blank_char (c : ascii) : bool :=
  Ascii.eqb c " " || Ascii.eqb c "009".

Fixpoint rstrip_blanks (s : string) : string :=
  match s with
  | EmptyString => EmptyString
  | String c s' =>
      match rstrip_blanks s' with
      | EmptyString =>
          if is_blank_char c then EmptyString else String c EmptyString
      | r => String c r
      end
  end.

(** Writes the buffer to the specified file; the file is the text written
    to it so far. *)
Definition write_to_file (file : string) : M string :=
  w <~ get ;;
  ret (fold_left (λ file line, file +:+ rstrip_blanks line +:+ newline)
         (output w) file).

(** * Part 2: the vocabulary of the properties *)

(** ** Page segments and inserted breaks *)

(** The page segments of an output: the runs of lines between two [.bp]
    lines, before the first and after the last one. *)
Fixpoint segments (out : list string) : list (list string) :=
  match out with
  | [] => [[]]
  | l :: rest =>
      if String.eqb l ".bp" then [] :: segments rest
      else match segments rest with
           | seg :: segs => (l :: seg) :: segs
           | [] => [[l]]
           end
  end.

(** [with_breaks marks lines] is [lines] with a [.bp] line put in front of
    every line that is marked. *)
Fixpoint with_breaks (marks : list bool) (lines : list string) : list string :=
  match marks, lines with
  | b :: marks, l :: lines =>
      (if b then [".bp"; l] else [l]) ++ with_breaks marks lines
  | _, _ => []
  end.

(** A RAW block of the ledger: a hint of class [raw] at offset [i] for [n]
    lines, keyed at a line of the buffer, whose lines carry no hint of
    another block. *)
Definition raw_block (w : Writer) (i : nat) (n : Z) : Prop :=
  break_hints w !! i = Some (n, "raw")
  ∧ i < length (buf w)
  ∧ ∀ j : nat, i < j → (Z.of_nat j < Z.of_nat i + n)%Z →
      break_hints w !! j = None.

(** ** Relations between the state before and after a method *)

(** [steps R m]: every run of [m] that returns relates the state before to
    the state after by [R]. *)
Definition steps {A} (R : relation Writer) (m : M A) : Prop :=
  ∀ w a w', m w = Some (a, w') → R w w'.

(** The buffer only grows and the ledger is left alone. *)
Definition grows (w w' : Writer) : Prop :=
  (∃ ls, buf w' = buf w ++ ls) ∧ break_hints w' = break_hints w.

(** The buffer only grows and the indentation state is left alone. *)
Definition appends (w w' : Writer) : Prop :=
  (∃ ls, buf w' = buf w ++ ls) ∧ curr_indent w' = curr_indent w.

(** ** The indentation tracker *)

(** An indent command is a line that starts with [.in ]. *)
Definition is_indent_cmd (s : string) : bool := Py.startswith s ".in ".

(** The indent commands of a buffer, in order. *)
Definition indent_cmds (b : list string) : list string :=
  filter (λ s, is_indent_cmd s = true) b.

(** Does a list hold the same line twice in a row? *)
Fixpoint repeats (l : list string) : bool :=
  match l with
  | x :: (y :: _) as t => String.eqb x y || repeats t
  | _ => false
  end.

(** The state of the tracker agrees with the buffer: no indent command
    repeats its predecessor, and the last one, if any, sets [curr_indent]. *)
Definition tracker_inv (w : Writer) : Prop :=
  repeats (indent_cmds (buf w)) = false
  ∧ ∀ c, last (indent_cmds (buf w)) = Some c →
         c = ".in " +:+ Py.str (curr_indent w).

(** The width is fixed, and the tracker stays in agreement with the buffer. *)
Definition keeps_tracker (w w' : Writer) : Prop :=
  width w' = width w ∧ (tracker_inv w → tracker_inv w').

(** The calls a document render makes on the writer; a block is written
    to the writer's buffer or to a list of the caller, [buf_arg]. *)
Inductive Call :=
  | CallIndent (amount : Z)
  | CallNroff (s : string)
  | CallLine (s : string)
  | CallVspace (num : Z)
  | CallText (txt : string) (indent sub_indent : Z) (bullet align : string)
      (leading_blankline : bool) (buf_arg : option (list string))
      (strip edit fix_sentence_endings : bool)
  | CallHeading (text bullet : string).

Section Render.

Variable wrap : string → bool → bool → list string.

Definition call (c : Call) : M unit :=
  match c with
  | CallIndent amount => _indent amount
  | CallNroff s => write_nroff s
  | CallLine s => write_line s
  | CallVspace num => _vspace num
  | CallText txt indent sub_indent bullet align lb buf_arg strip edit fse =>
      write_text wrap txt indent sub_indent bullet align lb buf_arg
        strip edit fse ;;; ret tt
  | CallHeading text bullet => write_heading text bullet
  end.

Fixpoint render (cs : list Call) : M unit :=
  match cs with
  | [] => ret tt
  | c :: cs => call c ;;; render cs
  end.

End Render.

(** The calls that leave indent commands to the tracker: no control line,
    bullet or heading writes one of its own. *)
Definition tracked (width : Z) (c : Call) : Prop :=
  match c with
  | CallNroff s => is_indent_cmd s = false
  | CallText _ _ _ bullet _ _ _ _ _ _ => is_indent_cmd bullet = false
  | CallHeading text bullet =>
      let bullet := if Py.truthy bullet then bullet +:+ "  " else bullet in
      (Py.len (bullet +:+ text) ≤ width - 3)%Z
  | _ => True
  end.

(** ** Sample inputs *)

(** A wrapping routine for text narrower than the line: the text is its
    own single line. *)
Definition wrap_narrow (s : string) (_ _ : bool) : list string :=
  if Py.truthy s then [s] else [].

Definition pis0 : Pis := {| editing := "no"; autobreaks := "yes" |}.

Definition defaults0 : Defaults := {| xref_format := "default" |}.

(** A fresh writer for lines of 72 columns. *)
Definition fresh : Writer := init 72 pis0 defaults0 [].

(** Sixty buffer lines, a FLOW hint for ten lines at offset 50 and a RAW
    hint for three lines at offset 54. *)
Definition sample_pages : Writer :=
  set_break_hints {[ 50 := (10%Z, "txt"); 54 := (3%Z, "raw") ]}
    (set_buf (replicate 60 "text") fresh).

(** A RAW hint for three lines at offset 0 and a forced break at offset 1. *)
Definition sample_overlap : Writer :=
  set_break_hints {[ 0 := (3%Z, "raw"); 1 := (0%Z, "break") ]}
    (set_buf ["a"; "b"; "c"] fresh).

(** A table of contents with an entry that starts with a dot. *)
Definition sample_toc : Writer :=
  init 72 pis0 defaults0 ["1.  Introduction"; ".NET profile"].

(** The state after a call of [write_text] that wrote nothing, and the
    state after a second call that wrote one line. *)
Definition hinted_empty : Writer :=
  set_break_hints {[ 0 := (0%Z, "txt") ]} fresh.

Definition hinted_line : Writer :=
  set_break_hints (<[ 0 := (1%Z, "txt") ]> (break_hints hinted_empty))
    (set_buf ["text"] hinted_empty).

(** The state after a block at base indent 3 and continuation indent 2. *)
Definition indented_text : Writer :=
  set_break_hints (<[ 0 := (2%Z, "txt") ]> ∅)
    (set_curr_indent 5 (set_buf [".in 5"; "text"] fresh)).

(** A render that sets the indentation through the block renderer and the
    tracker only; its last block is written to a list of the caller. *)
Definition sample_calls : list Call :=
  [ CallText "Abstract" 3 0 "" "left" true None true false true;
    CallIndent 3;
    CallText "first item" 3 0 "o  " "left" false None true false true;
    CallIndent 3;
    CallLine ".end";
    CallText "a cell" 5 0 "" "left" true (Some ["+--+"]) true false true ].

Definition sample_calls_end : Writer :=
  set_break_hints
    {[ 0 := (3%Z, "txt"); 3 := (3%Z, "txt"); 8 := (1%Z, "txt") ]}
    (set_curr_indent 5
       (set_buf [""; ".in 3"; "Abstract"; ".in 6"; ".ti 3"; "o  first item";
                 ".in 3"; "\&.end"; ".in 5"] fresh)).

(** A render with two headings too long for the line, each followed or
    preceded by a paragraph at indent 3. *)
Definition sample_headings : list Call :=
  [ CallText "Introductory text." 3 0 "" "left" true None true false true;
    CallHeading
      "Requirements for the Interaction of Page Breaks with Preformatted Figures"
      "1.";
    CallText "Body text." 3 0 "" "left" true None true false true;
    CallHeading
      "Requirements for the Interaction of Indentation with Section Headings"
      "2." ].

(** ** The effect of the block renderer *)

(** The parts of which a call of [write_text] is made up, as functions of
    its arguments and of the state in which it is called. *)
Section TextEffect.

Variable wrap : string → bool → bool → list string.

(** The text handed to the wrapper: stripped on the left, behind the bullet. *)
Definition wrapped_text (txt bullet : string) (strip : bool) : string :=
  let txt := if strip then Py.lstrip txt else txt in
  if has_bullet bullet then bullet +:+ txt else txt.

(** The lines the wrapper returns for it. *)
Definition wrapped_lines (txt bullet : string) (strip fse : bool)
    : list string :=
  wrap (wrapped_text txt bullet strip) (negb (has_bullet bullet)) fse.

(** The paragraph: the wrapped lines, escaped; none for an empty text; the
    escaping raises on an empty line. *)
Definition paragraph (txt bullet : string) (strip fse : bool)
    : option (list string) :=
  if Py.truthy txt
  then mapM escape_if_meta (wrapped_lines txt bullet strip fse)
  else Some [].

(** Does the call write to the writer's own buffer? *)
Definition own_buffer (buf_arg : option (list string)) : bool :=
  match buf_arg with
  | Some (_ :: _) => false
  | _ => true
  end.

(** Does the call render an edit mark? *)
Definition edit_mark (w : Writer) (leading_blankline edit : bool) : bool :=
  leading_blankline && edit && String.eqb (editing (pis w)) "yes".

(** The leading line: blank, or the edit mark with the next number. *)
Definition lead_lines (w : Writer) (leading_blankline edit : bool)
    : list string :=
  if leading_blankline
  then [if edit_mark w leading_blankline edit
        then "<" +:+ Py.str (edit_counter w + 1) +:+ ">"
        else ""]
  else [].

(** The control lines: the centring or indent command, then the temporary
    indent of a bullet. *)
Definition control_lines (w : Writer) (txt : string) (indent sub_indent : Z)
    (bullet align : string) (par : list string) : list string :=
  (if Py.truthy txt
   then if String.eqb align "center"
        then [".ce " +:+ Py.str (Z.of_nat (length par))]
        else if bool_decide (full_indent indent sub_indent bullet
                             = curr_indent w)
             then []
             else [".in " +:+ Py.str (full_indent indent sub_indent bullet)]
   else [])
  ++ (if has_bullet bullet then [".ti " +:+ Py.str indent] else []).

(** The content lines: the paragraph, or the bullet alone. *)
Definition body_lines (txt bullet : string) (par : list string)
    : list string :=
  if Py.truthy txt then par
  else if has_bullet bullet then [bullet] else [].

(** The state a call leaves behind when its paragraph is [par]. *)
Definition text_state (w : Writer) (txt : string) (indent sub_indent : Z)
    (bullet align : string) (leading_blankline : bool)
    (buf_arg : option (list string)) (edit : bool) (par : list string)
    : Writer :=
  let lines :=
    if own_buffer buf_arg
    then lead_lines w leading_blankline edit
           ++ control_lines w txt indent sub_indent bullet align par
           ++ body_lines txt bullet par
    else control_lines w txt indent sub_indent bullet align par in
  {| buf := buf w ++ lines;
     output := output w;
     break_hints :=
       <[length (buf w) := (Z.of_nat (length lines), "txt")]> (break_hints w);
     curr_indent :=
       if Py.truthy txt && negb (String.eqb align "center")
       then full_indent indent sub_indent bullet
       else curr_indent w;
     edit_counter :=
       if edit_mark w leading_blankline edit
       then (edit_counter w + 1)%Z
       else edit_counter w;
     pis := pis w; defaults := defaults w; toc := toc w; width := width w |}.

(** The caller's list as the call leaves it. *)
Definition text_ext (w : Writer) (txt bullet : string)
    (leading_blankline : bool) (buf_arg : option (list string))
    (edit : bool) (par : list string) : option (list string) :=
  match buf_arg with
  | Some (l :: ls) =>
      Some ((l :: ls) ++ lead_lines w leading_blankline edit
              ++ body_lines txt bullet par)
  | _ => None
  end.

End TextEffect.

(** ** Pages of a ledger without forcing hints *)

(** No hint of the ledger can force a break: automatic breaks are off and
    no hint is of class [break] or [raw]. *)
Definition no_forcing (w : Writer) : Prop :=
  autobreaks (pis w) ≠ "yes"
  ∧ ∀ i n t, break_hints w !! i = Some (n, t) → t ≠ "break" ∧ t ≠ "raw".

(** The lines [i, i + n) that open a page when only the capacity counts:
    those at a positive multiple of 55. *)
Definition page_marks (i n : nat) : list bool :=
  map (λ j, bool_decide (j ≠ 0 ∧ j mod 55 = 0)) (seq i n).

(** ** Trailing blanks *)

(** Is every character of the string a space or a tab? *)
Fixpoint all_blank (s : string) : bool :=
  match s with
  | EmptyString => true
  | String c s' => is_blank_char c && all_blank s'
  end.

(** Does the string end with a space or a tab? *)
Fixpoint ends_blank (s : string) : bool :=
  match s with
  | EmptyString => false
  | String c EmptyString => is_blank_char c
  | String _ s' => ends_blank s'
  end.

(** ** More sample inputs *)

(** A stand-in for the parent's [write_raw]: the text as one line, with a
    hint of class [raw] for it. *)
Definition raw_one_line (text : string) (_ : Z) (_ : string) (_ : Z)
    (_ : option string) (_ : bool) : M unit :=
  w <~ get ;;
  write_nroff text ;;;
  modify (λ v, set_break_hints
                 (<[length (buf w) := (1%Z, "raw")]> (break_hints v)) v).

(** A stand-in for the parent's [pre_rendering]. *)
Definition sample_headers : Headers :=
  {| left_header := "Internet-Draft"; center_header := "Title";
     right_header := "January 2012"; left_footer := "Doe";
     center_footer := "Expires July 2012" |}.

(** A tree of three elements with backslashes in text and tail. *)
Definition sample_tree : Element :=
  Elem (Some "a\b") None
    [Elem None (Some "\\") []; Elem (Some "") (Some "c") []].

(** An output with trailing blanks. *)
Definition sample_output : Writer :=
  set_output ["a  "; "   "; "c d"] fresh.

(** The state after a paragraph written into a fresh writer. *)
Definition sample_paragraph_end : Writer :=
  set_break_hints {[ 0 := (3%Z, "txt") ]}
    (set_curr_indent 3
       (set_buf [""; ".in 3"; "see \%http://a.example/"] fresh)).


(** A stand-in for the parent's [pre_rendering]: it leaves the headers and
    the writer as it is. *)
Definition parent_headers : M Headers := ret sample_headers.

(** The header that [pre_rendering] writes for version 2.4.0 behind the
    sample headers. *)
Definition sample_header_lines : list string :=
  ["\&.\" +:+ dquote
     +:+ " automatically generated by xml2rfc v2.4.0 on 2012-01-01T00:00:00Z";
   ""] ++ settings_header
  ++ [".ds LH Internet-Draft"; ".ds CH Title"; ".ds RH January 2012";
      ".ds LF Doe"; ".ds CF Expires July 2012"; ".ds RF FORMFEED[Page %]"].

(** Sixty buffer lines and a FLOW hint for ten lines at offset 50, with
    automatic breaks switched off. *)
Definition sample_plain : Writer :=
  set_break_hints {[ 50 := (10%Z, "txt") ]}
    (set_buf (replicate 60 "text")
       (init 72 {| editing := "no"; autobreaks := "no" |} defaults0 [])).

(** ** Records of a file *)

(** The text of a list of records: every record is followed by a line
    feed. *)
Definition records (recs : list string) : string :=
  fold_right (λ r text, r +:+ newline +:+ text) EmptyString recs.

(** ** Occurrences of the URL scheme *)

(** The number of places of a text at which [http://] starts. *)
Fixpoint count_http (s : string) : nat :=
  match s with
  | EmptyString => 0
  | String _ s' =>
      (if Py.startswith s "http://" then 1 else 0) + count_http s'
  end.

(** The state after a raw block of one line at indent 3, written into a
    fresh writer. *)
Definition sample_raw_end : Writer :=
  set_break_hints {[ 2 := (1%Z, "raw") ]}
    (set_curr_indent 3
       (set_buf [".in 3"; ".nf"; "+--+"; ".fi"] fresh)).

(** ** The ledger of a render *)

(** A render of 62 lines with automatic breaks switched off: a block, a
    block written to a list of the caller, and 58 lines. *)
Definition sample_long_calls : list Call :=
  CallText "Abstract" 3 0 "" "left" true None true false true
  :: CallText "a cell" 5 0 "" "left" true (Some ["+--+"]) true false true
  :: replicate 58 (CallLine "text").

Definition sample_long_end : Writer :=
  set_break_hints {[ 0 := (3%Z, "txt"); 3 := (1%Z, "txt") ]}
    (set_curr_indent 5
       (set_buf ([""; ".in 3"; "Abstract"; ".in 5"] ++ replicate 58 "text")
          (init 72 {| editing := "no"; autobreaks := "no" |} defaults0 []))).

(** The sample with a forced break and hints behind the end of its
    buffer. *)
Definition sample_overlap_late : Writer :=
  set_break_hints
    {[ 0 := (3%Z, "raw"); 1 := (0%Z, "break"); 3 := (5%Z, "break");
       7 := (2%Z, "raw") ]}
    (set_buf ["a"; "b"; "c"] fresh).

(** Every hint of the ledger is of class [txt] and describes lines of the
    buffer: its block starts at its key and ends within the buffer. *)
Definition hints_within (w : Writer) : Prop :=
  ∀ k n t, break_hints w !! k = Some (n, t) →
    t = "txt" ∧ (0 ≤ n)%Z
    ∧ (Z.of_nat k + n ≤ Z.of_nat (length (buf w)))%Z.

(** The buffer only grows, output and settings are left alone, and the
    hints stay within the buffer. *)
Definition keeps_hints (w w' : Writer) : Prop :=
  (∃ ls, buf w' = buf w ++ ls)
  ∧ output w' = output w
  ∧ pis w' = pis w
  ∧ (hints_within w → hints_within w').
(** * Part 3: the properties *)

Lemma startswith_char (c a : ascii) (s : string) :
  Py.startswith (String c s) (String a EmptyString) = Ascii.eqb c a.
Proof. simpl. by rewrite andb_true_r, Ascii.eqb_sym. Qed.

#[global] Arguments Py.startswith : simpl never.

(** ** The pagination loop *)

Section Pagination.

Variable w : Writer.

(** The hint-driven part leaves the state alone or appends one break and
    resets the counter. *)
Lemma hint_step_cases i line out pl :
  hint_step w i line (out, pl) = (out, pl)
  ∨ hint_step w i line (out, pl) = (out ++ [".bp"], 0%Z).
Proof.
  unfold hint_step. destruct (break_hints w !! i) as [hint|]; simpl; [|auto].
  destruct (break_wanted w pl line hint); auto.
Qed.

Lemma hint_step_none i line st :
  break_hints w !! i = None → hint_step w i line st = st.
Proof. intros H. unfold hint_step. by rewrite H. Qed.

Lemma emit_step_fits line out pl :
  (pl + 1 ≤ 55)%Z → emit_step line (out, pl) = (out ++ [line], (pl + 1)%Z).
Proof.
  intros H. unfold emit_step. simpl.
  rewrite bool_decide_eq_false_2 by lia. done.
Qed.

Lemma emit_step_full line out pl :
  (pl + 1 > 55)%Z →
  emit_step line (out, pl) = (out ++ [".bp"; line], 1%Z).
Proof.
  intros H. unfold emit_step. simpl.
  rewrite bool_decide_eq_true_2 by lia. simpl.
  by rewrite <- app_assoc.
Qed.

(** One iteration emits the line, preceded by at most one break; the
    counter afterwards counts the lines since the last break. *)
Lemma page_step_cases i line out pl :
  (0 ≤ pl ≤ 55)%Z →
  (page_step w i line (out, pl) = (out ++ [line], (pl + 1)%Z)
   ∧ (pl + 1 ≤ 55)%Z)
  ∨ page_step w i line (out, pl) = (out ++ [".bp"; line], 1%Z).
Proof.
  intros Hpl. unfold page_step.
  destruct (hint_step_cases i line out pl) as [-> | ->].
  - destruct (decide (pl + 1 ≤ 55)%Z).
    + rewrite emit_step_fits by done. auto.
    + rewrite emit_step_full by lia. auto.
  - rewrite emit_step_fits by lia. rewrite <- app_assoc. auto.
Qed.

(** Without the bound on the counter: a line, preceded by a break or not. *)
Lemma page_step_shape i line out pl :
  ∃ b : bool,
    (page_step w i line (out, pl)).1
    = out ++ (if b then [".bp"; line] else [line]).
Proof.
  unfold page_step.
  destruct (hint_step_cases i line out pl) as [-> | ->].
  - destruct (decide (pl + 1 ≤ 55)%Z).
    + rewrite emit_step_fits by done. by exists false.
    + rewrite emit_step_full by lia. by exists true.
  - rewrite emit_step_fits by lia. rewrite <- app_assoc. by exists true.
Qed.

Lemma paginate_app i l1 l2 st :
  paginate w i (l1 ++ l2) st
  = paginate w (i + length l1) l2 (paginate w i l1 st).
Proof.
  revert i st. induction l1 as [|line l1 IH]; intros i st; simpl.
  - by rewrite Nat.add_0_r.
  - rewrite IH. by replace (S i + length l1) with (i + S (length l1)) by lia.
Qed.

(** The output of the loop is the buffer with breaks put in front of some
    of its lines. *)
Lemma paginate_with_breaks lines i out pl :
  ∃ marks, length marks = length lines
           ∧ (paginate w i lines (out, pl)).1 = out ++ with_breaks marks lines.
Proof.
  revert i out pl. induction lines as [|line lines IH]; intros i out pl; simpl.
  - exists []. by rewrite app_nil_r.
  - destruct (page_step w i line (out, pl)) as [out1 pl1] eqn:Hs.
    destruct (IH (S i) out1 pl1) as (marks & Hlen & ->).
    destruct (page_step_shape i line out pl) as [b Hb].
    rewrite Hs in Hb. simpl in Hb. subst out1.
    exists (b :: marks). split; [simpl; lia|].
    simpl. by rewrite <- app_assoc.
Qed.

(** The counter stays between 0 and the page capacity. *)
Lemma paginate_bound lines i out pl :
  (0 ≤ pl ≤ 55)%Z → (0 ≤ (paginate w i lines (out, pl)).2 ≤ 55)%Z.
Proof.
  revert i out pl. induction lines as [|line lines IH]; intros i out pl Hpl; simpl.
  - done.
  - destruct (page_step_cases i line out pl Hpl) as [[-> ?] | ->];
      apply IH; lia.
Qed.

(** A run of lines without hints that fits on the page is copied as it is. *)
Lemma paginate_run lines i out pl :
  (0 ≤ pl)%Z → (pl + Z.of_nat (length lines) ≤ 55)%Z →
  (∀ j, i ≤ j < i + length lines → break_hints w !! j = None) →
  paginate w i lines (out, pl)
  = (out ++ lines, (pl + Z.of_nat (length lines))%Z).
Proof.
  revert i out pl. induction lines as [|line lines IH]; intros i out pl H0 Hfit Hno.
  - simpl. by rewrite app_nil_r, Z.add_0_r.
  - cbn [paginate length] in *. rewrite Nat2Z.inj_succ in *.
    unfold page_step. rewrite hint_step_none by (apply Hno; lia).
    rewrite emit_step_fits by lia. rewrite IH.
    + rewrite <- app_assoc. simpl.
      by replace (pl + 1 + Z.of_nat (length lines))%Z
        with (pl + Z.succ (Z.of_nat (length lines)))%Z by lia.
    + lia.
    + lia.
    + intros j Hj. apply Hno. lia.
Qed.

(** The first segment of what the loop appends completes the current page;
    every later segment is a page of its own. *)
Lemma paginate_segments lines i out pl :
  (0 ≤ pl ≤ 55)%Z →
  ∃ sfx seg segs,
    (paginate w i lines (out, pl)).1 = out ++ sfx
    ∧ segments sfx = seg :: segs
    ∧ (pl + Z.of_nat (length seg) ≤ 55)%Z
    ∧ Forall (λ s, length s ≤ 55) segs.
Proof.
  revert i out pl. induction lines as [|line lines IH]; intros i out pl Hpl; simpl.
  - exists [], [], []. rewrite app_nil_r. simpl.
    split; [done|]. split; [done|]. split; [lia | constructor].
  - assert (∀ pl1 sfx seg segs, (0 ≤ pl1)%Z →
              segments sfx = seg :: segs →
              (pl1 + 1 + Z.of_nat (length seg) ≤ 55)%Z →
              Forall (λ s, length s ≤ 55) segs →
              ∃ seg' segs', segments (line :: sfx) = seg' :: segs'
                ∧ (pl1 + Z.of_nat (length seg') ≤ 55)%Z
                ∧ Forall (λ s, length s ≤ 55) segs') as Hline.
    { intros p sfx seg segs Hp0 Hseg Hlen Hall. simpl. rewrite Hseg.
      destruct (String.eqb line ".bp").
      - exists [], (seg :: segs). simpl. split; [done|]. split; [lia|].
        constructor; [lia | done].
      - exists (line :: seg), segs. simpl. split; [done|]. split; [lia | done]. }
    destruct (page_step_cases i line out pl Hpl) as [[-> ?] | ->].
    + assert (Hb : (0 ≤ pl + 1 ≤ 55)%Z) by lia.
      destruct (IH (S i) (out ++ [line]) _ Hb)
        as (sfx & seg & segs & -> & Hseg & Hlen & Hall).
      destruct (Hline pl sfx seg segs (proj1 Hpl) Hseg Hlen Hall)
        as (seg' & segs' & ? & ? & ?).
      exists (line :: sfx), seg', segs'. rewrite <- app_assoc. done.
    + assert (Hb : (0 ≤ 1 ≤ 55)%Z) by lia.
      destruct (IH (S i) (out ++ [".bp"; line]) _ Hb)
        as (sfx & seg & segs & -> & Hseg & Hlen & Hall).
      destruct (Hline 0%Z sfx seg segs (Z.le_refl 0) Hseg Hlen Hall)
        as (seg' & segs' & Hs' & ? & ?).
      exists (".bp" :: line :: sfx), [], (seg' :: segs').
      rewrite <- app_assoc. split; [done|].
      split; [by rewrite <- Hs'|]. simpl.
      split; [lia|]. constructor; [lia | done].
Qed.

End Pagination.

(** ** Claims about the pagination pass *)

(** C1.  Whatever the buffer and the ledger, every page segment of the
    output that [post_rendering] appends (the lines between two [.bp] lines,
    before the first and after the last) has at most 55 lines; and one
    iteration of the loop, started with a counter between 0 and 55, either
    emits the line and adds one to the counter, or emits a break and the
    line and leaves the counter at 1: the break resets the counter to 0 and
    is not counted itself. *)
Theorem post_rendering_page_capacity (w : Writer) :
  ∃ w' out,
    post_rendering w = Some (tt, w')
    ∧ output w' = output w ++ out
    ∧ Forall (λ seg, length seg ≤ 55) (segments out)
    ∧ ∀ i line o pl,
        (0 ≤ pl ≤ 55)%Z →
        (1 ≤ (page_step w i line (o, pl)).2 ≤ 55)%Z
        ∧ (page_step w i line (o, pl) = (o ++ [line], (pl + 1)%Z)
           ∨ page_step w i line (o, pl) = (o ++ [".bp"; line], 1%Z)).
Proof.
  assert (Hb : (0 ≤ 0 ≤ 55)%Z) by lia.
  destruct (paginate_segments w (buf w) 0 (output w) 0 Hb)
    as (sfx & seg & segs & Hout & Hseg & Hlen & Hall).
  exists (set_output (paginate w 0 (buf w) (output w, 0%Z)).1 w), sfx.
  split; [done|]. split; [done|]. split.
  - rewrite Hseg. constructor; [lia | done].
  - intros i line o pl Hpl.
    destruct (page_step_cases w i line o pl Hpl) as [[-> ?] | ->];
      (split; [simpl; lia | auto]).
Qed.

(** C2.  The pagination pass returns for every buffer and every ledger,
    whatever the hints record, and what it appends to the output is the
    buffer, every line once and in order, with a [.bp] line put in front of
    some of the lines and nothing else. *)
Theorem post_rendering_total_in_order (w : Writer) :
  ∃ w' marks,
    post_rendering w = Some (tt, w')
    ∧ length marks = length (buf w)
    ∧ output w' = output w ++ with_breaks marks (buf w)
    ∧ buf w' = buf w.
Proof.
  destruct (paginate_with_breaks w (buf w) 0 (output w) 0) as (marks & Hlen & Hout).
  by exists (set_output (paginate w 0 (buf w) (output w, 0%Z)).1 w), marks.
Qed.





(** The hint-driven decision for a RAW hint. *)
Lemma raw_hint_step (w : Writer) (i : nat) (n : Z)
    (line : string) (out : list string) (pl : Z) :
  break_hints w !! i = Some (n, "raw") →
  hint_step w i line (out, pl)
  = if bool_decide (n > 55 - pl)%Z then (out ++ [".bp"], 0%Z) else (out, pl).
Proof.
  intros Hh. unfold hint_step, break_wanted, page_maxlen. rewrite Hh. simpl.
  destruct (String.eqb (Py.strip line) ""); simpl;
    repeat case_bool_decide; simpl; try lia; try done;
    by rewrite ?andb_false_r.
Qed.

(** Counterexample to C4 as stated: a forced break keyed at the second line
    of a RAW block of three lines splits the block. *)
Lemma raw_block_split_by_inner_hint :
  break_hints sample_overlap !! 0 = Some (3%Z, "raw")
  ∧ (λ r, output r.2) <$> post_rendering sample_overlap
    = Some ["a"; ".bp"; "b"; "c"].
Proof. split; reflexivity. Qed.

(** C4, as the code has it.  A RAW block hinted for at most 55 lines, none
    of which after the first carries a hint of its own, is never split: the
    output of the pass is the output for the lines before the block, then a
    break exactly when the block needs more lines than the page has left,
    then the lines of the block with nothing in between, then the rest. *)
Theorem raw_block_not_split (w : Writer) (i : nat) (n : Z) :
  raw_block w i n →
  (n ≤ 55)%Z →
  ∃ pre pl rest w',
    paginate w 0 (take i (buf w)) (output w, 0%Z) = (pre, pl)
    ∧ post_rendering w = Some (tt, w')
    ∧ output w'
      = pre ++ (if bool_decide (n > 55 - pl)%Z then [".bp"] else [])
            ++ take (Z.to_nat n) (drop i (buf w)) ++ rest.
Proof.
  intros (Hh & Hi & Hno) Hn.
  destruct (lookup_lt_is_Some_2 _ _ Hi) as [line Hl].
  destruct (paginate w 0 (take i (buf w)) (output w, 0%Z)) as [pre pl] eqn:Hpre.
  assert (Hb0 : (0 ≤ 0 ≤ 55)%Z) by lia.
  pose proof (paginate_bound w (take i (buf w)) 0 (output w) 0 Hb0) as Hpl.
  rewrite Hpre in Hpl. simpl in Hpl.
  pose proof (take_drop_middle _ _ _ Hl) as Hsplit.
  assert (Hdrop : drop i (buf w) = line :: drop (S i) (buf w))
    by (by rewrite <- (drop_S _ _ _ Hl)).
  assert (Hlen : length (take i (buf w)) = i) by (rewrite length_take_le; lia).
  rewrite Hdrop.
  set (tail := drop (S i) (buf w)) in *.
  set (brk := if bool_decide (n > 55 - pl)%Z then [".bp"] else []).
  set (pl0 := if bool_decide (n > 55 - pl)%Z then 0%Z else pl).
  assert (Hhint : hint_step w i line (pre, pl) = (pre ++ brk, pl0)).
  { rewrite (raw_hint_step w i n line pre pl Hh). unfold brk, pl0.
    case_bool_decide; [done | by rewrite app_nil_r]. }
  assert (Hfit : (0 ≤ pl0 ∧ (n ≤ 0 ∨ pl0 + n ≤ 55))%Z)
    by (unfold pl0; case_bool_decide; lia).
  assert (Hpag : paginate w 0 (buf w) (output w, 0%Z)
                 = paginate w i (line :: tail) (pre, pl)).
  { transitivity (paginate w 0 (take i (buf w) ++ line :: tail) (output w, 0%Z));
      [by rewrite Hsplit|].
    by rewrite paginate_app, Hpre, Hlen. }
  (* the pass from the first line of the block on *)
  assert (Hmain : ∃ rest,
             (paginate w i (line :: tail) (pre, pl)).1
             = pre ++ brk ++ take (Z.to_nat n) (line :: tail) ++ rest).
  { destruct (decide (n ≤ 0)%Z) as [Hn0|Hn1].
    - (* an empty block: there is nothing to keep together *)
      destruct (paginate_with_breaks w (line :: tail) i pre pl)
        as (marks & _ & ->).
      exists (with_breaks marks (line :: tail)).
      unfold brk. rewrite bool_decide_eq_false_2 by lia.
      replace (Z.to_nat n) with 0 by lia. by rewrite take_0.
    - destruct Hfit as [Hpl0 [?|Hfit]]; [lia|].
      set (k := Z.to_nat n - 1).
      replace (Z.to_nat n) with (S k) by lia. rewrite firstn_cons.
      cbn [paginate]. unfold page_step. rewrite Hhint.
      rewrite emit_step_fits by lia.
      assert (Hk : length (take k tail) ≤ k) by (rewrite length_take; lia).
      assert (Hrun : paginate w (S i) (take k tail) ((pre ++ brk) ++ [line], (pl0 + 1)%Z)
                     = (((pre ++ brk) ++ [line]) ++ take k tail,
                        (pl0 + 1 + Z.of_nat (length (take k tail)))%Z)).
      { apply paginate_run; [lia | lia |]. intros j Hj. apply Hno; lia. }
      destruct (paginate_with_breaks w (drop k tail) (S i + length (take k tail))
                  (((pre ++ brk) ++ [line]) ++ take k tail)
                  (pl0 + 1 + Z.of_nat (length (take k tail)))%Z)
        as (marks & _ & Hp).
      exists (with_breaks marks (drop k tail)).
      transitivity ((paginate w (S i) (take k tail ++ drop k tail)
                       ((pre ++ brk) ++ [line], (pl0 + 1)%Z)).1);
        [by rewrite take_drop|].
      rewrite paginate_app, Hrun, Hp.
      by rewrite <- !app_assoc. }
  destruct Hmain as (rest & Hmain).
  exists pre, pl, rest,
    (set_output (pre ++ brk ++ take (Z.to_nat n) (line :: tail) ++ rest) w).
  split; [done|]. split; [|done].
  unfold post_rendering, modify. by rewrite Hpag, Hmain.
Qed.

Lemma raw_block_not_split_witness :
  ∃ pre pl rest w',
    paginate sample_pages 0 (take 54 (buf sample_pages))
      (output sample_pages, 0%Z) = (pre, pl)
    ∧ post_rendering sample_pages = Some (tt, w')
    ∧ output w'
      = pre ++ (if bool_decide (3 > 55 - pl)%Z then [".bp"] else [])
            ++ take (Z.to_nat 3) (drop 54 (buf sample_pages)) ++ rest.
Proof.
  apply (raw_block_not_split sample_pages 54 3).
  - split; [reflexivity|]. split; [simpl; lia|].
    intros j H1 H2.
    assert (j = 55 ∨ j = 56) as [-> | ->] by lia; reflexivity.
  - lia.
Defined.

(** ** Escaping *)

Lemma nroff_escape_linestart_cons (c : ascii) (s : string) :
  nroff_escape_linestart (String c s)
  = if Ascii.eqb c "'" then Some ("\" +:+ String c s)
    else if Ascii.eqb c "." then Some ("\&" +:+ String c s)
    else None.
Proof.
  unfold nroff_escape_linestart. rewrite !startswith_char.
  destruct (Ascii.eqb c "'"); [done|]. by destruct (Ascii.eqb c ".").
Qed.

Lemma meta_eqb (c : ascii) :
  bool_decide (c ∈ nroff_linestart_meta) = Ascii.eqb c "'" || Ascii.eqb c ".".
Proof.
  unfold nroff_linestart_meta.
  destruct (Ascii.eqb_spec c "'") as [->|Hq]; [done|].
  destruct (Ascii.eqb_spec c ".") as [->|Hd]; [done|].
  apply bool_decide_eq_false_2.
  by intros [->|[->|[]%elem_of_nil]%elem_of_cons]%elem_of_cons.
Qed.

(** What the test-and-escape idiom yields on a line that is not empty. *)
Lemma escape_if_meta_cons (c : ascii) (s : string) :
  escape_if_meta (String c s)
  = Some (if Ascii.eqb c "'" then "\" +:+ String c s
          else if Ascii.eqb c "." then "\&" +:+ String c s
          else String c s).
Proof.
  unfold escape_if_meta.
  rewrite meta_eqb, nroff_escape_linestart_cons.
  destruct (Ascii.eqb c "'"); [done|]. by destruct (Ascii.eqb c ".").
Qed.

(** An escaped line starts with neither sentinel. *)
Lemma escape_if_meta_safe (s s' : string) :
  escape_if_meta s = Some s' →
  Py.startswith s' "'" = false ∧ Py.startswith s' "." = false.
Proof.
  destruct s as [|c s]; [done|]. rewrite escape_if_meta_cons.
  intros [= <-].
  destruct (Ascii.eqb c "'") eqn:Hq; [done|].
  destruct (Ascii.eqb c ".") eqn:Hd; [done|].
  by rewrite !startswith_char, Hq, Hd.
Qed.

(** C10.  [write_line] appends exactly one line for every string that is
    not empty: the string behind a backslash when it starts with a quote,
    behind [\&] when it starts with a dot, and the string itself otherwise.
    On the empty string it raises, for it reads the first character before
    anything else. *)
Theorem write_line_partial :
  (∀ c s w,
     write_line (String c s) w
     = Some (tt, set_buf (buf w ++ [if Ascii.eqb c "'" then "\" +:+ String c s
                                    else if Ascii.eqb c "." then "\&" +:+ String c s
                                    else String c s]) w))
  ∧ (∀ w, write_line "" w = None).
Proof.
  split.
  - intros c s w. unfold write_line, bind, lift, modify.
    by rewrite escape_if_meta_cons.
  - done.
Qed.

(** C6.  The lines of the table of contents enter the buffer as they are:
    an entry that starts with a dot is copied without the escape that
    [write_line] puts in front of the same text. *)
Theorem toc_lines_not_escaped :
  _post_write_toc [""] sample_toc
  = Some ([""; ".ti 0"; "Table of Contents"; ""; ".in 3"; ".nf";
           "1.  Introduction"; ".NET profile"; ".fi"], sample_toc)
  ∧ (write_line ".NET profile" sample_toc
     = Some (tt, set_buf ["\&.NET profile"] sample_toc)).
Proof. split; reflexivity. Qed.

(** ** Cross references *)

Section XrefFacts.

Variable lookup_anchor : string → option Item.

Lemma expand_xref_eq (xref : Xref) (w : Writer) :
  _expand_xref lookup_anchor xref w
  = let target := default "" (attrib xref !! "target") in
    let format := default (xref_format (defaults w))
                    (attrib xref !! "format") in
    let t := xref_target_text lookup_anchor target format in
    Some (match text xref with
          | Some (String c s) =>
              Py.rstrip (String c s) +:+ " " +:+
                (if Py.startswith t "[" then xref_keep t
                 else "(" +:+ t +:+ ")")
          | _ => xref_keep t
          end, w).
Proof.
  unfold _expand_xref, bind, get, ret. simpl.
  destruct (text xref) as [[|c s]|]; try done.
  by destruct (Py.startswith _ _).
Qed.

End XrefFacts.

(** C9.  Every expansion of a cross reference returns, in an unchanged
    writer, a result built from a display text.  The target is the
    element's [target] attribute, or the empty string, and the format its
    [format] attribute, or the default format of the writer.  The display
    text is the bracketed target when the anchor has no item or the format
    is [none], the item's counter for [counter], its title for [title] and
    its generated name for every other format.  When the xref element has
    text of its own, a display text that does not start with a bracket is
    put in parentheses, and one that does and holds a dot or a hyphen gets
    the [\%] prefix; the result is the element's text, stripped on the
    right, a space and the display text.  Without text of its own, absent
    or empty, the result is the display text, with the prefix when it holds
    a dot or a hyphen. *)
Theorem expand_xref_display (lookup_anchor : string → option Item)
    (xref : Xref) (w : Writer) :
  let target := default "" (attrib xref !! "target") in
  let format := default (xref_format (defaults w)) (attrib xref !! "format") in
  ∃ d : string,
    (lookup_anchor target = None ∨ format = "none" →
       d = "[" +:+ target +:+ "]")
    ∧ (∀ item, lookup_anchor target = Some item →
         (format = "counter" → d = counter item)
         ∧ (format = "title" → d = title item)
         ∧ (format ≠ "none" → format ≠ "counter" → format ≠ "title" →
              d = autoName item))
    ∧ _expand_xref lookup_anchor xref w
      = Some (match text xref with
              | Some (String c s) =>
                  Py.rstrip (String c s) +:+ " " +:+
                    (if negb (Py.startswith d "[") then "(" +:+ d +:+ ")"
                     else if Py.contains "." d || Py.contains "-" d
                          then "\%" +:+ d
                          else d)
              | _ => if Py.contains "." d || Py.contains "-" d
                     then "\%" +:+ d
                     else d
              end, w).
Proof.
  intros target format.
  exists (xref_target_text lookup_anchor target format).
  split; [|split].
  - unfold xref_target_text. intros [-> | ->]; [done|].
    by destruct (lookup_anchor target).
  - intros item Hi. unfold xref_target_text. rewrite Hi.
    split; [by intros -> |]. split; [by intros -> |]. intros Hn Hc Ht.
    destruct (String.eqb_spec format "none"); [done|].
    destruct (String.eqb_spec format "counter"); [done|].
    by destruct (String.eqb_spec format "title").
  - rewrite expand_xref_eq. fold target format. unfold xref_keep. simpl.
    destruct (text xref) as [[|c s]|]; try done.
    by destruct (Py.startswith _ "[").
Qed.

(** ** Reasoning about methods *)

Lemma bind_Some {A B} (m : M A) (k : A → M B) (w : Writer) (b : B) (w' : Writer) :
  bind m k w = Some (b, w') ↔ ∃ a w1, m w = Some (a, w1) ∧ k a w1 = Some (b, w').
Proof.
  unfold bind. split.
  - destruct (m w) as [[a w1]|]; [eauto | done].
  - by intros (a & w1 & -> & ?).
Qed.

Lemma steps_elim {A} (R : relation Writer) (m : M A) w a w' :
  m w = Some (a, w') → steps R m → R w w'.
Proof. intros H S. by eapply S. Qed.

Section Steps.

Context (R : relation Writer) `{!PreOrder R}.

Lemma steps_ret {A} (a : A) : steps R (ret a).
Proof. by intros w b w' [= _ <-]. Qed.

Lemma steps_get : steps R get.
Proof. by intros w b w' [= _ <-]. Qed.

Lemma steps_lift {A} (o : option A) : steps R (lift o).
Proof. intros w b w'. unfold lift. destruct o; [by intros [= _ <-] | done]. Qed.

Lemma steps_modify (f : Writer → Writer) :
  (∀ w, R w (f w)) → steps R (modify f).
Proof. intros Hf w b w' [= _ <-]. apply Hf. Qed.

Lemma steps_bind {A B} (m : M A) (k : A → M B) :
  steps R m → (∀ a, steps R (k a)) → steps R (bind m k).
Proof.
  intros Hm Hk w b w' (a & w1 & H1 & H2)%bind_Some.
  etransitivity; [by eapply Hm | by eapply Hk].
Qed.

End Steps.

(** Walk through a method body; [tac] settles the state updates. *)
Ltac steps_go tac :=
  repeat first
    [ progress tac
    | lazymatch goal with
      | |- steps ?R (ret _) => apply (steps_ret R)
      | |- steps ?R get => apply (steps_get R)
      | |- steps ?R (lift _) => apply (steps_lift R)
      | |- steps ?R (bind _ _) => apply (steps_bind R); [| intros ?]
      | |- steps _ (if ?b then _ else _) => destruct b eqn:?
      | |- steps _ (match ?x with _ => _ end) => destruct x eqn:?
      end
    | progress unfold _lb, target_extend, write_nroff, _indent ].

(** *** The buffer only grows and the ledger is left alone *)

#[global] Instance grows_preorder : PreOrder grows.
Proof.
  split.
  - intros w. split; [|done]. exists []. by rewrite app_nil_r.
  - intros w1 w2 w3 [[l1 H1] G1] [[l2 H2] G2]. split; [|congruence].
    exists (l1 ++ l2). by rewrite H2, H1, app_assoc.
Qed.

Lemma grows_set_buf (ls : list string) (w : Writer) :
  grows w (set_buf (buf w ++ ls) w).
Proof. split; [by exists ls | done]. Qed.

Lemma grows_set_curr_indent (a : Z) (w : Writer) :
  grows w (set_curr_indent a w).
Proof. split; [|done]. exists []. by rewrite app_nil_r. Qed.

Lemma grows_set_edit_counter (c : Z) (w : Writer) :
  grows w (set_edit_counter c w).
Proof. split; [|done]. exists []. by rewrite app_nil_r. Qed.

Ltac grows_update :=
  apply (steps_modify grows); intros ?;
  first [ apply grows_set_buf | apply grows_set_curr_indent
        | apply grows_set_edit_counter ].

Section RendererFacts.

Variable wrap : string → bool → bool → list string.

(** Up to the point where the hint is recorded, [write_text] only appends
    to the buffer; then it stores the hint under the old buffer length. *)
Lemma write_text_hint txt indent sub_indent bullet align leading_blankline
    buf_arg strip edit fse (w : Writer) ext' (w' : Writer) :
  write_text wrap txt indent sub_indent bullet align leading_blankline
    buf_arg strip edit fse w = Some (ext', w') →
  ∃ w1, grows w w1
        ∧ w' = set_break_hints
                 (<[length (buf w) :=
                      ((Z.of_nat (length (buf w1)) - Z.of_nat (length (buf w)))%Z,
                       "txt")]> (break_hints w1)) w1.
Proof.
  unfold write_text. intros H.
  apply bind_Some in H as (? & ? & [= <- <-] & H).
  apply bind_Some in H as (ext1 & w1 & H1 & H).
  apply bind_Some in H as (ps & w2 & H2 & H).
  destruct ps as [par txt'].
  apply bind_Some in H as (par' & w3 & H3 & H).
  apply bind_Some in H as (ext2 & w4 & H4 & H).
  apply bind_Some in H as (? & ? & [= <- <-] & H).
  apply bind_Some in H as (? & ? & [= <-] & [= _ <-]).
  exists w4. split; [|done].
  assert (grows w w1) as G1.
  { apply (steps_elim _ _ _ _ _ H1). steps_go grows_update. }
  assert (grows w1 w2) as G2.
  { apply (steps_elim _ _ _ _ _ H2). steps_go grows_update. }
  assert (grows w2 w3) as G3.
  { apply (steps_elim _ _ _ _ _ H3). steps_go grows_update. }
  assert (grows w3 w4) as G4.
  { apply (steps_elim _ _ _ _ _ H4). steps_go grows_update. }
  by repeat (etransitivity; [eassumption|]).
Qed.

End RendererFacts.

(** *** The buffer grows and the indentation state is left alone *)

#[global] Instance appends_preorder : PreOrder appends.
Proof.
  split.
  - intros w. split; [|done]. exists []. by rewrite app_nil_r.
  - intros w1 w2 w3 [[l1 H1] G1] [[l2 H2] G2]. split; [|congruence].
    exists (l1 ++ l2). by rewrite H2, H1, app_assoc.
Qed.

Lemma appends_set_buf (ls : list string) (w : Writer) :
  appends w (set_buf (buf w ++ ls) w).
Proof. split; [by exists ls | done]. Qed.

Lemma appends_set_edit_counter (c : Z) (w : Writer) :
  appends w (set_edit_counter c w).
Proof. split; [|done]. exists []. by rewrite app_nil_r. Qed.

Lemma appends_set_break_hints (h : gmap nat (Z * string)) (w : Writer) :
  appends w (set_break_hints h w).
Proof. split; [|done]. exists []. by rewrite app_nil_r. Qed.

Ltac appends_update :=
  apply (steps_modify appends); intros ?;
  first [ apply appends_set_buf | apply appends_set_edit_counter
        | apply appends_set_break_hints ].

(** What a call of the indentation tracker does. *)
Lemma _indent_spec (amount : Z) (w : Writer) (u : unit) (w' : Writer) :
  _indent amount w = Some (u, w') →
  curr_indent w' = amount
  ∧ buf w' = buf w ++ (if bool_decide (amount = curr_indent w) then []
                       else [".in " +:+ Py.str amount])
  ∧ break_hints w' = break_hints w.
Proof.
  unfold _indent, bind, get, write_nroff, modify, ret.
  destruct (decide (amount = curr_indent w)) as [He|Hne].
  - rewrite bool_decide_eq_false_2 by (by intros []).
    rewrite bool_decide_eq_true_2 by done.
    intros [= _ <-]. by rewrite app_nil_r.
  - rewrite bool_decide_eq_true_2 by done.
    rewrite bool_decide_eq_false_2 by done.
    by intros [= _ <-].
Qed.

Section BlockFacts.

Variable wrap : string → bool → bool → list string.

(** C7, as the code has it.  A call of [write_text] records its hint
    under the buffer length at entry, replacing whatever the ledger held
    there, with the number of lines the call added to the writer's buffer;
    that offset is at most the new buffer length, and so is every offset
    of the ledger when that held before the call. *)
Theorem write_text_hint_offset txt indent sub_indent bullet align
    leading_blankline buf_arg strip edit fse
    (w : Writer) ext' (w' : Writer) :
  write_text wrap txt indent sub_indent bullet align leading_blankline
    buf_arg strip edit fse w = Some (ext', w') →
  (∀ k, is_Some (break_hints w !! k) → k ≤ length (buf w)) →
  let begin := length (buf w) in
  let hint := ((Z.of_nat (length (buf w')) - Z.of_nat begin)%Z, "txt") in
  break_hints w' = <[begin := hint]> (break_hints w)
  ∧ break_hints w' !! begin = Some hint
  ∧ begin ≤ length (buf w')
  ∧ ∀ k, is_Some (break_hints w' !! k) → k ≤ length (buf w').
Proof.
  intros H Hinv begin hint.
  destruct (write_text_hint wrap _ _ _ _ _ _ _ _ _ _ _ _ _ H)
    as (w1 & [[ls Hls] Hh] & ->).
  simpl in *. unfold hint, begin. simpl. rewrite Hh.
  assert (length (buf w) ≤ length (buf w1)) as Hle
    by (rewrite Hls, length_app; lia).
  split; [done|]. split; [by rewrite lookup_insert_eq|]. split; [done|].
  intros k. destruct (decide (k = length (buf w))) as [->|Hk]; [done|].
  rewrite lookup_insert_ne by done. intros Hs. specialize (Hinv k Hs). lia.
Qed.

(** C8, as the code has it.  For a call with text that is not centred, the
    indent handed to the tracker is the base indent plus the continuation
    indent when one is given, and the base indent plus the length of the
    bullet when it is zero: the tracker is left at that level, and the
    buffer receives the leading line, then the indent command if the level
    changed, then the rest of the block.  A bullet [1. ] at base indent 0
    gives level 3, with a [.ti 0] line in front of the bullet line. *)
Theorem write_text_effective_indent txt indent sub_indent bullet align
    leading_blankline buf_arg strip edit fse
    (w : Writer) ext' (w' : Writer) :
  write_text wrap txt indent sub_indent bullet align leading_blankline
    buf_arg strip edit fse w = Some (ext', w') →
  Py.truthy txt = true →
  align ≠ "center" →
  (sub_indent = 0 ∨ indent + sub_indent ≠ 0)%Z →
  let effective := if bool_decide (sub_indent = 0)%Z
                   then (indent + Py.len bullet)%Z
                   else (indent + sub_indent)%Z in
  curr_indent w' = effective
  ∧ (∃ pre post,
       buf w' = buf w ++ pre
                  ++ (if bool_decide (effective = curr_indent w) then []
                      else [".in " +:+ Py.str effective])
                  ++ post)
  ∧ (λ r, (buf r.2, curr_indent r.2))
      <$> write_text wrap_narrow "item" 0 0 "1. " "left" false None
            true false true fresh
    = Some ([".in 3"; ".ti 0"; "1. item"], 3%Z).
Proof.
  intros H Htxt Halign Hsub effective.
  assert (Heff : full_indent indent sub_indent bullet = effective).
  { unfold full_indent, effective. repeat case_bool_decide; try done; lia. }
  unfold write_text in H.
  apply bind_Some in H as (? & ? & [= <- <-] & H).
  apply bind_Some in H as (ext1 & w1 & H1 & H).
  apply bind_Some in H as (ps & w2 & H2 & H).
  destruct ps as [par txt'].
  apply bind_Some in H as (par' & w3 & H3 & H).
  apply bind_Some in H as (ext2 & w4 & H4 & H).
  apply bind_Some in H as (? & ? & [= <- <-] & H).
  apply bind_Some in H as (? & wf & Hm & [= _ <-]).
  unfold modify in Hm. injection Hm as _ <-.
  assert (appends w w1) as [[pre Hpre] I1].
  { apply (steps_elim _ _ _ _ _ H1). steps_go appends_update. }
  assert (appends w2 w3) as G3.
  { apply (steps_elim _ _ _ _ _ H3). steps_go appends_update. }
  assert (appends w3 w4) as G4.
  { apply (steps_elim _ _ _ _ _ H4). steps_go appends_update. }
  destruct (transitivity G3 G4) as [[post Hpost] I2].
  rewrite Htxt in H2.
  assert (∃ u, _indent (full_indent indent sub_indent bullet) w1 = Some (u, w2))
    as [u Hind].
  { destruct (has_bullet bullet);
      apply bind_Some in H2 as (par0 & wx & Hl & H2);
      unfold lift in Hl; destruct (mapM _ _); simplify_eq;
      apply bind_Some in H2 as (u & wy & H2 & Hr);
      injection Hr as _ _ <-;
      destruct (String.eqb_spec align "center"); try done; eauto. }
  rewrite Heff in Hind.
  destruct (_indent_spec _ _ _ _ Hind) as (Hc & Hb & _).
  split; [|split].
  - simpl. by rewrite I2.
  - exists pre, post. simpl. rewrite Hpost, Hb, Hpre, I1.
    by rewrite <- !app_assoc.
  - by vm_compute.
Qed.

End BlockFacts.

(** Counterexample to C7 as stated: a call without text, bullet or leading
    blank line adds nothing to the buffer, and the offset it records is the
    buffer length itself, not an offset below it. *)
Lemma write_text_hint_offset_at_end :
  match write_text wrap_narrow "" 0 0 "" "left" false None true false true
          fresh with
  | Some (_, w') =>
      is_Some (break_hints w' !! 0) ∧ ¬ 0 < length (buf w')
  | None => False
  end.
Proof. vm_compute. split; [eauto | lia]. Qed.

Lemma write_text_hint_offset_witness :
  break_hints hinted_line !! 0 = Some (1%Z, "txt")
  ∧ ∀ k, is_Some (break_hints hinted_line !! k) → k ≤ length (buf hinted_line).
Proof.
  assert (Hinv : ∀ k, is_Some (break_hints hinted_empty !! k)
                      → k ≤ length (buf hinted_empty)).
  { intros [|k] Hk; [simpl; lia|].
    simpl in Hk. rewrite lookup_singleton_ne in Hk by done.
    by destruct Hk. }
  destruct (write_text_hint_offset wrap_narrow "text" 0 0 "" "left" false None
              true false true hinted_empty None hinted_line eq_refl Hinv)
    as (_ & Hnew & _ & Hall).
  split; [exact Hnew | exact Hall].
Defined.

(** Counterexample to C8 as stated: with base indent 3 and continuation
    indent 2 the tracker is handed 5, not the continuation indent. *)
Lemma write_text_indent_adds_base :
  (λ r, (buf r.2, curr_indent r.2))
    <$> write_text wrap_narrow "text" 3 2 "" "left" false None
          true false true fresh
  = Some ([".in 5"; "text"], 5%Z)
  ∧ 5%Z ≠ 2%Z.
Proof. split; [by vm_compute | done]. Qed.

Lemma write_text_effective_indent_witness :
  curr_indent indented_text = 5%Z.
Proof.
  apply (write_text_effective_indent wrap_narrow "text" 3 2 "" "left" false None
           true false true fresh None indented_text).
  - reflexivity.
  - reflexivity.
  - discriminate.
  - right. lia.
Defined.

(** ** The indentation tracker *)

Lemma repeats_snoc (l : list string) (x : string) :
  repeats l = false → last l ≠ Some x → repeats (l ++ [x]) = false.
Proof.
  induction l as [|a [|b l] IH]; intros Hr Hl; [done| |].
  - simpl in *. rewrite orb_false_r. apply String.eqb_neq. congruence.
  - change (repeats (a :: b :: l)) with (String.eqb a b || repeats (b :: l)) in Hr.
    apply orb_false_elim in Hr as [Hab Hr].
    change (repeats ((a :: b :: l) ++ [x]))
      with (String.eqb a b || repeats ((b :: l) ++ [x])).
    rewrite Hab. simpl. apply IH; [done|]. by rewrite last_cons_cons in Hl.
Qed.

Lemma indent_cmds_app (b1 b2 : list string) :
  indent_cmds (b1 ++ b2) = indent_cmds b1 ++ indent_cmds b2.
Proof. apply filter_app. Qed.

Lemma indent_cmds_plain (ls : list string) :
  Forall (λ s, is_indent_cmd s = false) ls → indent_cmds ls = [].
Proof.
  induction 1 as [|s ls Hs _ IH]; [done|].
  unfold indent_cmds. rewrite filter_cons_False by congruence. apply IH.
Qed.

#[global] Instance keeps_tracker_preorder : PreOrder keeps_tracker.
Proof.
  split.
  - by intros w.
  - intros w1 w2 w3 [H1 G1] [H2 G2]. split; [congruence | auto].
Qed.

Lemma keeps_extend (ls : list string) (w : Writer) :
  Forall (λ s, is_indent_cmd s = false) ls →
  keeps_tracker w (set_buf (buf w ++ ls) w).
Proof.
  intros Hls. split; [done|]. unfold tracker_inv. simpl.
  by rewrite indent_cmds_app, (indent_cmds_plain ls Hls), app_nil_r.
Qed.

Lemma keeps_set_edit_counter (c : Z) (w : Writer) :
  keeps_tracker w (set_edit_counter c w).
Proof. by split. Qed.

Lemma keeps_set_break_hints (h : gmap nat (Z * string)) (w : Writer) :
  keeps_tracker w (set_break_hints h w).
Proof. by split. Qed.

Lemma indent_cmd_inj (a b : Z) :
  ".in " +:+ Py.str a = ".in " +:+ Py.str b → a = b.
Proof.
  intros [= H]. change (pretty a = pretty b) in H.
  by apply (inj (pretty (A:=Z))) in H.
Qed.

(** The tracker keeps itself in agreement with the buffer. *)
Lemma steps_indent (amount : Z) : steps keeps_tracker (_indent amount).
Proof.
  intros w u w' H. split.
  - revert H. unfold _indent, bind, get, write_nroff, modify, ret.
    case_bool_decide; by intros [= _ <-].
  - destruct (_indent_spec _ _ _ _ H) as (Hc & Hb & _).
    intros [Hr Hl]. unfold tracker_inv. rewrite Hb, Hc.
    case_bool_decide as Heq.
    + rewrite app_nil_r. by rewrite Heq.
    + rewrite indent_cmds_app.
      assert (indent_cmds [".in " +:+ Py.str amount] = [".in " +:+ Py.str amount])
        as -> by done.
      split.
      * apply repeats_snoc; [done|]. intros Hc'%Hl.
        by apply indent_cmd_inj in Hc'.
      * intros c. rewrite last_snoc. by intros [= <-].
Qed.

(** An escaped line is no command at all. *)
Lemma escaped_plain (s s' : string) :
  escape_if_meta s = Some s' → is_indent_cmd s' = false.
Proof.
  intros [_ H]%escape_if_meta_safe. destruct s' as [|c s']; [done|].
  rewrite startswith_char in H. unfold is_indent_cmd.
  unfold Py.startswith. fold Py.startswith. by rewrite Ascii.eqb_sym, H.
Qed.

Lemma escaped_all_plain (ls ls' : list string) :
  mapM escape_if_meta ls = Some ls' →
  Forall (λ s, is_indent_cmd s = false) ls'.
Proof.
  intros H%mapM_Some. induction H as [|s s' ls ls' Hs _ IH]; [done|].
  constructor; [by eapply escaped_plain | done].
Qed.

Ltac plain_lines :=
  repeat constructor; first [ done | assumption | by eapply escaped_plain ].

Ltac keeps_update :=
  first
    [ apply steps_indent
    | apply (steps_modify keeps_tracker); intros ?;
      first [ apply keeps_set_edit_counter | apply keeps_set_break_hints
            | apply keeps_extend; plain_lines ] ].

Lemma steps_write_line (s : string) : steps keeps_tracker (write_line s).
Proof.
  intros w u w' (s' & w1 & Hl & Hm)%bind_Some.
  unfold lift in Hl. destruct (escape_if_meta s) as [e|] eqn:He; [|done].
  injection Hl as <- <-. injection Hm as _ <-.
  apply keeps_extend. plain_lines.
Qed.

Section RenderFacts.

Variable wrap : string → bool → bool → list string.

Lemma steps_write_text txt indent sub_indent bullet align leading_blankline
    buf_arg strip edit fse :
  is_indent_cmd bullet = false →
  steps keeps_tracker
    (write_text wrap txt indent sub_indent bullet align leading_blankline
       buf_arg strip edit fse).
Proof.
  intros Hb w ext' w' H. unfold write_text in H.
  apply bind_Some in H as (? & ? & [= <- <-] & H).
  apply bind_Some in H as (ext1 & w1 & H1 & H).
  apply bind_Some in H as (ps & w2 & H2 & H).
  destruct ps as [par txt'].
  apply bind_Some in H as (par' & w3 & H3 & H).
  apply bind_Some in H as (ext2 & w4 & H4 & H).
  apply bind_Some in H as (? & ? & [= <- <-] & H).
  apply bind_Some in H as (? & wf & Hm & [= _ <-]).
  unfold modify in Hm. injection Hm as _ <-.
  assert (keeps_tracker w w1) as G1.
  { apply (steps_elim _ _ _ _ _ H1). steps_go keeps_update. }
  assert (keeps_tracker w1 w2 ∧ Forall (λ s, is_indent_cmd s = false) par)
    as [G2 Hpar].
  { destruct (Py.truthy txt); [|by injection H2 as <- _ <-].
    destruct (has_bullet bullet);
      apply bind_Some in H2 as (par0 & wx & Hl & H2);
      unfold lift in Hl;
      destruct (mapM _ _) as [par1|] eqn:Hesc; simplify_eq;
      apply bind_Some in H2 as (u & wy & H2 & Hr);
      injection Hr as <- _ <-;
      (split; [|by eapply escaped_all_plain]);
      apply (steps_elim _ _ _ _ _ H2); steps_go keeps_update. }
  assert (keeps_tracker w2 w3 ∧ Forall (λ s, is_indent_cmd s = false) par')
    as [G3 Hpar'].
  { destruct (has_bullet bullet); [|by injection H3 as <- <-].
    apply bind_Some in H3 as (u & wy & H3 & Hr).
    injection Hr as <- <-. split.
    - apply (steps_elim _ _ _ _ _ H3). steps_go keeps_update.
    - destruct (Py.truthy txt'); [done|].
      apply Forall_app. split; [done | by constructor]. }
  assert (keeps_tracker w3 w4) as G4.
  { apply (steps_elim _ _ _ _ _ H4). steps_go keeps_update. }
  assert (keeps_tracker w4 (set_break_hints
            (<[length (buf w) :=
                 ((Z.of_nat (length (buf w4)) - Z.of_nat (length (buf w)))%Z,
                  "txt")]> (break_hints w4)) w4)) as G5
    by apply keeps_set_break_hints.
  by repeat (etransitivity; [eassumption|]).
Qed.

Lemma steps_write_heading (text bullet : string) (w : Writer) u (w' : Writer) :
  tracked (width w) (CallHeading text bullet) →
  write_heading text bullet w = Some (u, w') → keeps_tracker w w'.
Proof.
  unfold tracked, write_heading. intros Hfit H.
  apply bind_Some in H as (ext1 & w1 & H1 & H).
  apply bind_Some in H as (? & ? & [= <- <-] & H).
  assert (keeps_tracker w w1) as G1.
  { apply (steps_elim _ _ _ _ _ H1). steps_go keeps_update. }
  destruct G1 as [Hw G1].
  rewrite Hw, bool_decide_eq_false_2 in H by lia.
  assert (keeps_tracker w1 w') as [Hw' G2].
  { apply (steps_elim _ _ _ _ _ H).
    steps_go ltac:(first [ apply steps_write_line | keeps_update ]). }
  split; [congruence | auto].
Qed.

Lemma steps_call (c : Call) (w : Writer) u (w' : Writer) :
  tracked (width w) c → call wrap c w = Some (u, w') → keeps_tracker w w'.
Proof.
  destruct c; simpl; intros Ht H.
  - by eapply steps_indent.
  - apply (steps_elim _ _ _ _ _ H). steps_go keeps_update.
  - by eapply steps_write_line.
  - apply (steps_elim _ _ _ _ _ H). steps_go keeps_update.
  - apply bind_Some in H as (e & w1 & H & [= _ <-]).
    by eapply steps_write_text.
  - by eapply steps_write_heading.
Qed.

Lemma render_keeps (cs : list Call) (w : Writer) u (w' : Writer) :
  Forall (tracked (width w)) cs →
  render wrap cs w = Some (u, w') → keeps_tracker w w'.
Proof.
  revert w. induction cs as [|c cs IH]; intros w Hcs; simpl.
  - by intros [= _ <-].
  - intros (u1 & w1 & H1 & H2)%bind_Some.
    apply Forall_cons in Hcs as [Hc Hcs].
    pose proof (steps_call c w u1 w1 Hc H1) as G1.
    etransitivity; [exact G1|]. apply IH; [|done].
    destruct G1 as [-> _]. done.
Qed.

End RenderFacts.

(** X22.  In a render whose indent commands all come from the tracker (no
    control line and no bullet is an indent command, and no heading is too
    long for the line), whether its blocks go to the writer's buffer or to
    a list of the caller, no indent command of the buffer repeats the one
    before it, and the last one states the level the tracker remembers; a
    call of the tracker appends nothing when the level is the remembered
    one and one command otherwise.  The block of the table of contents
    carries an [.in 3] of its own and leaves the writer, and so the
    tracker, as it was. *)
Theorem tracker_never_repeats (wrap : string → bool → bool → list string)
    (width : Z) (pis : Pis) (defaults : Defaults) (entries : list string)
    (cs : list Call) (w' : Writer) :
  Forall (tracked width) cs →
  render wrap cs (init width pis defaults entries) = Some (tt, w') →
  repeats (indent_cmds (buf w')) = false
  ∧ (∀ c, last (indent_cmds (buf w')) = Some c →
          c = ".in " +:+ Py.str (curr_indent w'))
  ∧ (∀ amount w u v,
        _indent amount w = Some (u, v) →
        buf v = buf w ++ (if bool_decide (amount = curr_indent w) then []
                           else [".in " +:+ Py.str amount]))
  ∧ ∀ tmpbuf w,
      _post_write_toc tmpbuf w
      = Some (tmpbuf ++ [".ti 0"; "Table of Contents"; ""; ".in 3"; ".nf"]
                ++ toc w ++ [".fi"], w).
Proof.
  intros Hcs H.
  destruct (render_keeps wrap cs (init width pis defaults entries) tt w' Hcs H)
    as [_ Hinv].
  destruct Hinv as [Hr Hl]; [by split|].
  split; [done|]. split; [done|]. split; [|done].
  intros amount w u v Hi. by destruct (_indent_spec _ _ _ _ Hi) as (_ & ? & _).
Qed.

Lemma tracker_never_repeats_witness :
  repeats (indent_cmds (buf sample_calls_end)) = false.
Proof.
  apply (tracker_never_repeats wrap_narrow 72 pis0 defaults0 [] sample_calls
           sample_calls_end).
  - repeat constructor.
  - reflexivity.
Defined.

(** C5.  A heading too long for the line writes its indent command itself,
    past the tracker: [write_heading] appends [.in N] for the width of the
    bullet and changes nothing but the buffer, so [curr_indent] stays at
    the level of the text before, where the block renderer hands every
    indent to [_indent].  In a render with two such headings and a
    paragraph at indent 3 between them, the paragraph is at the level the
    tracker remembers and gets no indent command, although the last one
    written is [.in 4]; the second heading then repeats the [.in 4] of the
    first: the buffer holds two consecutive indent commands with the same
    level. *)
Theorem heading_indent_past_tracker :
  (∀ (text bullet : string) (w : Writer) (line : string),
     let bullet' := if Py.truthy bullet then bullet +:+ "  " else bullet in
     (Py.len (bullet' +:+ text) > width w - 3)%Z →
     escape_if_meta (bullet' +:+ text) = Some line →
     write_heading text bullet w
     = Some (tt, set_buf (buf w ++ [""; ".in " +:+ Py.str (Py.len bullet');
                                    ".ti 0"; line]) w))
  ∧ (λ r, (buf r.2, indent_cmds (buf r.2), repeats (indent_cmds (buf r.2)),
           curr_indent r.2))
      <$> render wrap_narrow sample_headings fresh
    = Some ([""; ".in 3"; "Introductory text.";
             ""; ".in 4"; ".ti 0";
             "1.  Requirements for the Interaction of Page Breaks with Preformatted Figures";
             ""; "Body text.";
             ""; ".in 4"; ".ti 0";
             "2.  Requirements for the Interaction of Indentation with Section Headings"],
            [".in 3"; ".in 4"; ".in 4"], true, 3%Z).
Proof.
  split; [|by vm_compute].
  intros text bullet w line bullet' Hlong He.
  unfold write_heading, _lb, target_extend, write_nroff, write_line, bind,
    modify, get, ret, lift. fold bullet'.
  destruct w as [b o h c e p d t wd]. cbn [width buf set_buf] in *.
  rewrite bool_decide_eq_true_2 by done. cbn [buf set_buf].
  rewrite He. cbn [buf set_buf]. by rewrite <- !app_assoc.
Qed.

(** ** The block renderer in full *)

Lemma has_bullet_truthy (bullet s : string) :
  has_bullet bullet = true → Py.truthy (bullet +:+ s) = true.
Proof. unfold has_bullet. by destruct bullet. Qed.

Lemma hint_count (b ls : list string) :
  (Z.of_nat (length (b ++ ls)) - Z.of_nat (length b))%Z = Z.of_nat (length ls).
Proof. rewrite length_app. lia. Qed.

Section TextEffectFacts.

Variable wrap : string → bool → bool → list string.

(** A call of [write_text] raises when its paragraph does, and otherwise
    returns the caller's list and the state described above. *)
Lemma write_text_effect txt indent sub_indent bullet align leading_blankline
    buf_arg strip edit fse (w : Writer) :
  write_text wrap txt indent sub_indent bullet align leading_blankline
    buf_arg strip edit fse w
  = par ← paragraph wrap txt bullet strip fse;
    Some (text_ext w txt bullet leading_blankline buf_arg edit par,
          text_state w txt indent sub_indent bullet align leading_blankline
            buf_arg edit par).
Proof.
  destruct w as [b o h ci ec p d t wd].
  unfold write_text, paragraph, wrapped_lines, wrapped_text, text_ext,
    text_state, lead_lines, control_lines, body_lines, edit_mark, own_buffer.
  unfold bind, get, ret, modify, lift, _lb, target_extend, _indent,
    write_nroff, bind, get, ret, modify.
  cbn [buf output break_hints curr_indent edit_counter pis defaults toc width].
  destruct (Py.truthy txt) eqn:Ht, (has_bullet bullet) eqn:Hb;
    cbn [negb andb];
    try destruct (mapM escape_if_meta _) as [par|]; cbn [mbind option_bind];
    try (by destruct buf_arg as [[|l ls]|], leading_blankline, edit,
              (String.eqb (editing p) "yes"));
    try destruct (String.eqb align "center");
    destruct buf_arg as [[|l ls]|], leading_blankline, edit,
      (String.eqb (editing p) "yes");
    cbn -[Z.of_nat Z.sub length app];
    try rewrite (has_bullet_truthy _ _ Hb);
    repeat case_bool_decide; try congruence;
    cbn -[Z.of_nat Z.sub length app];
    rewrite ?has_bullet_truthy by assumption; rewrite ?Ht;
    rewrite <- ?app_assoc, ?app_nil_r, ?app_nil_l, ?hint_count, ?Z.sub_diag;
    try match goal with
        | H : full_indent _ _ _ = _ |- _ => rewrite H
        end;
    reflexivity.
Qed.

End TextEffectFacts.

Lemma escape_if_meta_None (s : string) :
  escape_if_meta s = None ↔ s = "".
Proof.
  destruct s as [|c s]; [done|]. by rewrite escape_if_meta_cons.
Qed.

Lemma mapM_escape_None (ls : list string) :
  mapM escape_if_meta ls = None ↔ "" ∈ ls.
Proof.
  induction ls as [|s ls IH]; simpl.
  - split; [done | by intros ?%elem_of_nil].
  - rewrite elem_of_cons.
    destruct (escape_if_meta s) as [e|] eqn:He; simpl.
    + assert (s ≠ "") by (intros ->; done).
      destruct (mapM escape_if_meta ls); simpl.
      * split; [done|]. intros [?|Hin]; [done|]. by apply IH in Hin.
      * split; [|done]. intros _. right. by apply IH.
    + apply escape_if_meta_None in He as ->. split; [by left | done].
Qed.

Lemma paragraph_None (wrap : string → bool → bool → list string)
    (txt bullet : string) (strip fse : bool) :
  paragraph wrap txt bullet strip fse = None
  ↔ Py.truthy txt = true ∧ "" ∈ wrapped_lines wrap txt bullet strip fse.
Proof.
  unfold paragraph. destruct (Py.truthy txt).
  - rewrite mapM_escape_None. by split; [|intros []].
  - by split; [|intros []].
Qed.

(** X1.  A call of [write_text] raises exactly when there is text and the
    wrapper returns an empty line for it: the escaping loop reads the first
    character of every line.  Nothing else in the method can raise. *)
Theorem write_text_raises (wrap : string → bool → bool → list string)
    txt indent sub_indent bullet align leading_blankline buf_arg strip edit
    fse (w : Writer) :
  write_text wrap txt indent sub_indent bullet align leading_blankline
    buf_arg strip edit fse w = None
  ↔ Py.truthy txt = true ∧ "" ∈ wrapped_lines wrap txt bullet strip fse.
Proof.
  rewrite write_text_effect, <- paragraph_None.
  by destruct (paragraph wrap txt bullet strip fse).
Qed.

(** X2.  Centred text never touches the indentation tracker: whatever
    buffer the call is given, it leaves [curr_indent] as it was.  A call
    with text writes a [.ce] command that counts exactly the lines of the
    paragraph, and the temporary indent of a bullet if there is one, to the
    writer's buffer; the leading line and the paragraph go around them to
    the writer's buffer, or behind a non-empty list of the caller. *)
Theorem write_text_center (wrap : string → bool → bool → list string)
    txt indent sub_indent bullet leading_blankline buf_arg strip edit fse
    (w : Writer) ext' (w' : Writer) :
  write_text wrap txt indent sub_indent bullet "center" leading_blankline
    buf_arg strip edit fse w = Some (ext', w') →
  curr_indent w' = curr_indent w
  ∧ (Py.truthy txt = true →
     ∃ par,
       mapM escape_if_meta (wrapped_lines wrap txt bullet strip fse) = Some par
       ∧ let ctl := [".ce " +:+ Py.str (Z.of_nat (length par))]
                      ++ (if has_bullet bullet then [".ti " +:+ Py.str indent]
                          else []) in
         match buf_arg with
         | Some (l :: ls) =>
             buf w' = buf w ++ ctl
             ∧ ext' = Some ((l :: ls) ++ lead_lines w leading_blankline edit
                              ++ par)
         | _ =>
             buf w' = buf w ++ lead_lines w leading_blankline edit
                        ++ ctl ++ par
             ∧ ext' = None
         end).
Proof.
  rewrite write_text_effect.
  destruct (paragraph wrap txt bullet strip fse) as [par|] eqn:Hp; [|done].
  simpl. intros [= <- <-]. split.
  - simpl. by rewrite andb_false_r.
  - intros Ht. exists par. unfold paragraph in Hp. rewrite Ht in Hp.
    split; [done|].
    destruct buf_arg as [[|l ls]|]; simpl;
      unfold control_lines, body_lines; rewrite Ht; simpl;
      by rewrite <- ?app_assoc.
Qed.

Lemma write_text_center_witness :
  curr_indent
    (text_state fresh "Title" 0 0 "" "center" false (Some ["+--+"]) false
       ["Title"])
  = 0%Z.
Proof.
  apply (write_text_center wrap_narrow "Title" 0 0 "" false (Some ["+--+"])
           true false true fresh (Some ["+--+"; "Title"])
           (text_state fresh "Title" 0 0 "" "center" false (Some ["+--+"])
              false ["Title"])).
  reflexivity.
Defined.

(** X3.  The edit counter moves only for an edit mark, whatever buffer the
    call is given: a call that asks for a leading blank line with [edit]
    set, in editing mode, adds one to the counter and writes [<N>] with the
    new number as its first line; every other call leaves the counter alone
    and writes a blank line, or no leading line at all.  The leading line
    is the first line added to the writer's buffer, or the first line added
    to a non-empty list of the caller. *)
Theorem write_text_edit_mark (wrap : string → bool → bool → list string)
    txt indent sub_indent bullet align leading_blankline buf_arg strip edit
    fse (w : Writer) ext' (w' : Writer) :
  write_text wrap txt indent sub_indent bullet align leading_blankline
    buf_arg strip edit fse w = Some (ext', w') →
  let mark := leading_blankline && edit
              && String.eqb (editing (pis w)) "yes" in
  let lead := if mark then ["<" +:+ Py.str (edit_counter w') +:+ ">"]
              else if leading_blankline then [""] else [] in
  edit_counter w' = (if mark then edit_counter w + 1 else edit_counter w)%Z
  ∧ ∃ rest,
      match buf_arg with
      | Some (l :: ls) => ext' = Some ((l :: ls) ++ lead ++ rest)
      | _ => buf w' = buf w ++ lead ++ rest ∧ ext' = None
      end.
Proof.
  intros H mark lead. rewrite write_text_effect in H.
  destruct (paragraph wrap txt bullet strip fse) as [par|] eqn:Hp; [|done].
  simpl in H. injection H as <- <-. split; [done|].
  assert (lead = lead_lines w leading_blankline edit) as ->.
  { unfold lead, mark, lead_lines. simpl. unfold edit_mark.
    by destruct leading_blankline, edit, (String.eqb (editing (pis w)) "yes"). }
  destruct buf_arg as [[|l ls]|]; simpl.
  - by exists (control_lines w txt indent sub_indent bullet align par
                 ++ body_lines txt bullet par).
  - by exists (body_lines txt bullet par).
  - by exists (control_lines w txt indent sub_indent bullet align par
                 ++ body_lines txt bullet par).
Qed.

Lemma write_text_edit_mark_witness :
  edit_counter
    (text_state (init 72 {| editing := "yes"; autobreaks := "yes" |}
                   defaults0 [])
       "text" 3 0 "" "left" true (Some ["+--+"]) true ["text"])
  = 1%Z.
Proof.
  apply (write_text_edit_mark wrap_narrow "text" 3 0 "" "left" true
           (Some ["+--+"]) true true true
           (init 72 {| editing := "yes"; autobreaks := "yes" |} defaults0 [])
           (Some ["+--+"; "<1>"; "text"])
           (text_state (init 72 {| editing := "yes"; autobreaks := "yes" |}
                          defaults0 [])
              "text" 3 0 "" "left" true (Some ["+--+"]) true ["text"])).
  reflexivity.
Defined.

Lemma control_lines_shape (w : Writer) txt indent sub_indent bullet align par :
  Forall (λ s, Py.startswith s "." = true)
    (control_lines w txt indent sub_indent bullet align par)
  ∧ length (control_lines w txt indent sub_indent bullet align par) ≤ 2.
Proof.
  unfold control_lines.
  destruct (Py.truthy txt), (String.eqb align "center"), (has_bullet bullet);
    try case_bool_decide; simpl; split; try lia; by repeat constructor.
Qed.

(** X4.  A caller's buffer gets the leading line and the content lines only
    when it is not empty: then the writer's own buffer receives nothing but
    the control lines of the call, at most two, and the hint counts only
    those.  An empty list passed as buffer is taken for no buffer at all:
    the call behaves as without the argument and the caller's list stays
    empty. *)
Theorem write_text_caller_buffer (wrap : string → bool → bool → list string)
    txt indent sub_indent bullet align leading_blankline strip edit fse
    (w : Writer) :
  write_text wrap txt indent sub_indent bullet align leading_blankline
    (Some []) strip edit fse w
  = write_text wrap txt indent sub_indent bullet align leading_blankline
      None strip edit fse w
  ∧ ∀ l ls ext' w',
      write_text wrap txt indent sub_indent bullet align leading_blankline
        (Some (l :: ls)) strip edit fse w = Some (ext', w') →
      ∃ par ctl,
        paragraph wrap txt bullet strip fse = Some par
        ∧ ext' = Some ((l :: ls) ++ lead_lines w leading_blankline edit
                         ++ body_lines txt bullet par)
        ∧ buf w' = buf w ++ ctl
        ∧ Forall (λ s, Py.startswith s "." = true) ctl
        ∧ length ctl ≤ 2
        ∧ break_hints w' !! length (buf w)
          = Some (Z.of_nat (length ctl), "txt").
Proof.
  split; [done|].
  intros l ls ext' w'. rewrite write_text_effect.
  destruct (paragraph wrap txt bullet strip fse) as [par|] eqn:Hp; [|done].
  simpl. intros [= <- <-].
  exists par, (control_lines w txt indent sub_indent bullet align par).
  destruct (control_lines_shape w txt indent sub_indent bullet align par).
  repeat split; try done. simpl. by rewrite lookup_insert_eq.
Qed.

Lemma escaped_all_safe (ls par : list string) :
  mapM escape_if_meta ls = Some par →
  Forall (λ s, Py.startswith s "'" = false ∧ Py.startswith s "." = false) par.
Proof.
  intros H%mapM_Some. induction H as [|s s' ls ls' Hs _ IH]; [done|].
  constructor; [by eapply escape_if_meta_safe | done].
Qed.

(** X5.  When a call with text writes to the writer's own buffer, the buffer
    ends with the lines of the wrapper, one for one and in order, each
    escaped: none of them starts with a quote or a dot, so none is read as a
    command. *)
Theorem write_text_content_escaped
    (wrap : string → bool → bool → list string)
    txt indent sub_indent bullet align leading_blankline strip edit fse
    (w : Writer) ext' (w' : Writer) :
  write_text wrap txt indent sub_indent bullet align leading_blankline
    None strip edit fse w = Some (ext', w') →
  Py.truthy txt = true →
  ∃ head par,
    buf w' = buf w ++ head ++ par
    ∧ Forall2 (λ line e, escape_if_meta line = Some e)
        (wrapped_lines wrap txt bullet strip fse) par
    ∧ Forall (λ s, Py.startswith s "'" = false ∧ Py.startswith s "." = false)
        par.
Proof.
  rewrite write_text_effect. intros H Ht. unfold paragraph in H.
  rewrite Ht in H.
  destruct (mapM escape_if_meta _) as [par|] eqn:Hp; [|done].
  simpl in H. injection H as <- <-.
  exists (lead_lines w leading_blankline edit
            ++ control_lines w txt indent sub_indent bullet align par), par.
  split; [|split].
  - simpl. unfold body_lines. rewrite Ht. by rewrite <- ?app_assoc.
  - by apply mapM_Some.
  - by eapply escaped_all_safe.
Qed.

Lemma write_text_content_escaped_witness :
  ∃ head par,
    buf (text_state fresh ".profile" 3 0 "" "left" false None false
           ["\&.profile"])
    = buf fresh ++ head ++ par
    ∧ Forall2 (λ line e, escape_if_meta line = Some e)
        (wrapped_lines wrap_narrow ".profile" "" true true) par
    ∧ Forall (λ s, Py.startswith s "'" = false ∧ Py.startswith s "." = false)
        par.
Proof.
  apply (write_text_content_escaped wrap_narrow ".profile" 3 0 "" "left"
           false true false true fresh None
           (text_state fresh ".profile" 3 0 "" "left" false None false
              ["\&.profile"])).
  - reflexivity.
  - reflexivity.
Defined.

(** ** Paragraphs, titles and headings *)

(** X6.  A paragraph always begins with a blank line, and that line is the
    one its hint is keyed at: the hint counts every line the call added, at
    least one, so its offset lies inside the buffer; the paragraph is
    written at indent 3 and never renders an edit mark. *)
Theorem write_paragraph_hint (wrap : string → bool → bool → list string)
    (text align : string) (w : Writer) u (w' : Writer) :
  write_paragraph wrap text align w = Some (u, w') →
  buf w' !! length (buf w) = Some ""
  ∧ length (buf w) < length (buf w')
  ∧ break_hints w' !! length (buf w)
    = Some (Z.of_nat (length (buf w') - length (buf w)), "txt")
  ∧ edit_counter w' = edit_counter w
  ∧ (text ≠ "" → align ≠ "center" → curr_indent w' = 3%Z).
Proof.
  unfold write_paragraph. intros (e & v & H & [= _ <-])%bind_Some.
  rewrite write_text_effect in H.
  destruct (paragraph wrap (urlkeep text) "" true true) as [par|]; [|done].
  simpl in H. injection H as _ <-. simpl.
  split; [|split; [|split; [|split]]].
  - by rewrite lookup_app_r, Nat.sub_diag by lia.
  - rewrite !length_app. simpl. lia.
  - rewrite lookup_insert_eq. do 2 f_equal.
    rewrite (length_app (buf w)). f_equal. cbn [length]. lia.
  - done.
  - intros Ht Ha.
    assert (Py.truthy (urlkeep text) = true) as ->.
    { destruct text as [|c s]; [done|]. unfold urlkeep. simpl.
      by destruct (Py.startswith _ _). }
    destruct (String.eqb_spec align "center"); [done|]. done.
Qed.

Lemma write_paragraph_hint_witness :
  buf sample_paragraph_end !! length (buf fresh) = Some ""
  ∧ break_hints sample_paragraph_end !! length (buf fresh)
    = Some (Z.of_nat (length (buf sample_paragraph_end) - length (buf fresh)),
            "txt").
Proof.
  destruct (write_paragraph_hint wrap_narrow "see http://a.example/" "left"
              fresh tt sample_paragraph_end eq_refl)
    as (H1 & _ & H2 & _).
  split; [exact H1 | exact H2].
Defined.

Lemma center_lines_plain (w : Writer) (txt : string) (indent sub_indent : Z)
    (par : list string) :
  Forall (λ s, is_indent_cmd s = false) par →
  indent_cmds (control_lines w txt indent sub_indent "" "center" par
                 ++ body_lines txt "" par) = [].
Proof.
  intros Hpar. apply indent_cmds_plain. unfold control_lines, body_lines. simpl.
  destruct (Py.truthy txt); simpl; [|done].
  by constructor.
Qed.

Lemma paragraph_plain (wrap : string → bool → bool → list string)
    (txt bullet : string) (strip fse : bool) (par : list string) :
  paragraph wrap txt bullet strip fse = Some par →
  Forall (λ s, is_indent_cmd s = false) par.
Proof.
  unfold paragraph. destruct (Py.truthy txt).
  - apply escaped_all_plain.
  - by intros [= <-].
Qed.

(** X7.  A title is written without the indentation tracker: the call
    leaves [curr_indent] as it was and adds no indent command to the buffer.
    Its first line is a blank line that no hint of the call covers: the
    ledger entry at that offset is the one from before the call. *)
Theorem write_title_no_indent (wrap : string → bool → bool → list string)
    (text docName : string) (w : Writer) u (w' : Writer) :
  write_title wrap text docName w = Some (u, w') →
  curr_indent w' = curr_indent w
  ∧ indent_cmds (buf w') = indent_cmds (buf w)
  ∧ buf w' !! length (buf w) = Some ""
  ∧ break_hints w' !! length (buf w) = break_hints w !! length (buf w).
Proof.
  unfold write_title. intros (e0 & v0 & H0 & H)%bind_Some.
  injection H0 as _ <-.
  apply bind_Some in H as (e1 & v1 & H1 & H).
  rewrite write_text_effect in H1.
  destruct (paragraph wrap text "" true true) as [par|] eqn:Hp; [|done].
  simpl in H1. injection H1 as _ <-.
  pose proof (paragraph_plain _ _ _ _ _ _ Hp) as Hplain.
  remember (text_state (set_buf (buf w ++ [""]) w) text 0 0 "" "center" false
              None false par) as v1 eqn:Hv1.
  assert (curr_indent v1 = curr_indent w
          ∧ indent_cmds (buf v1) = indent_cmds (buf w)
          ∧ buf v1 !! length (buf w) = Some ""
          ∧ break_hints v1 !! length (buf w) = break_hints w !! length (buf w)
          ∧ length (buf w) < length (buf v1)) as (A1 & A2 & A3 & A4 & A5).
  { rewrite Hv1. simpl.
    split; [by rewrite andb_false_r|]. split; [|split; [|split]].
    - rewrite indent_cmds_app, (center_lines_plain _ _ _ _ _ Hplain).
      rewrite app_nil_r, indent_cmds_app. simpl. by rewrite app_nil_r.
    - rewrite <- app_assoc. by rewrite lookup_app_r, Nat.sub_diag by lia.
    - rewrite lookup_insert_ne; [done|]. rewrite length_app. simpl. lia.
    - rewrite !length_app. simpl. lia. }
  clear Hv1. destruct (Py.truthy docName).
  - apply bind_Some in H as (e2 & v2 & H2 & [= _ <-]).
    rewrite write_text_effect in H2.
    destruct (paragraph wrap docName "" true true) as [par2|] eqn:Hp2; [|done].
    simpl in H2. injection H2 as _ <-.
    pose proof (paragraph_plain _ _ _ _ _ _ Hp2) as Hplain2.
    simpl. split; [by rewrite andb_false_r|]. split; [|split].
    + rewrite indent_cmds_app, (center_lines_plain _ _ _ _ _ Hplain2).
      by rewrite app_nil_r.
    + by rewrite lookup_app_l by done.
    + by rewrite lookup_insert_ne by lia.
  - by injection H as _ <-.
Qed.

Lemma write_title_no_indent_witness :
  curr_indent
    (text_state (set_buf [""] fresh) "Title" 0 0 "" "center" false None false
       ["Title"])
  = curr_indent fresh.
Proof.
  apply (write_title_no_indent wrap_narrow "Title" "" fresh tt
           (text_state (set_buf [""] fresh) "Title" 0 0 "" "center" false None
              false ["Title"])).
  reflexivity.
Defined.

(** X8.  A heading is four lines at most: a blank line, an indent command
    of its own when bullet and text together are wider than the line less
    three, the temporary indent [.ti 0], and the heading behind its bullet,
    escaped.  The command is written past the tracker, whose state the call
    leaves as it was, as it leaves the ledger.  A heading without bullet
    and text raises. *)
Theorem write_heading_lines (text bullet : string) (w : Writer) :
  let bullet' := if Py.truthy bullet then bullet +:+ "  " else bullet in
  match escape_if_meta (bullet' +:+ text) with
  | None => bullet = "" ∧ text = "" ∧ write_heading text bullet w = None
  | Some line =>
      write_heading text bullet w
      = Some (tt, set_buf
                    (buf w ++ [""]
                       ++ (if bool_decide (Py.len (bullet' +:+ text)
                                           > width w - 3)%Z
                           then [".in " +:+ Py.str (Py.len bullet')]
                           else [])
                       ++ [".ti 0"; line]) w)
  end.
Proof.
  intros bullet'.
  assert (write_heading text bullet w
          = match escape_if_meta (bullet' +:+ text) with
            | Some line =>
                Some (tt, set_buf
                            (buf w ++ [""]
                               ++ (if bool_decide (Py.len (bullet' +:+ text)
                                                   > width w - 3)%Z
                                   then [".in " +:+ Py.str (Py.len bullet')]
                                   else [])
                               ++ [".ti 0"; line]) w)
            | None => None
            end) as Heq.
  { unfold write_heading, _lb, target_extend, write_nroff, write_line, bind,
      modify, get, ret, lift. fold bullet'.
    destruct w as [b o h c e p d t wd]. cbn [width buf set_buf].
    destruct (escape_if_meta (bullet' +:+ text)) as [line|];
      case_bool_decide; cbn [buf set_buf]; rewrite <- ?app_assoc; reflexivity. }
  rewrite Heq.
  destruct (escape_if_meta (bullet' +:+ text)) as [line|] eqn:He; [done|].
  apply escape_if_meta_None in He.
  assert (bullet = "" ∧ text = "") as [-> ->].
  { unfold bullet' in He. destruct bullet; [by destruct text | done]. }
  done.
Qed.

(** ** The tracker and the escaper on their own *)

(** X9.  Asking the tracker for the same level twice is the same as asking
    once: the second call writes nothing and changes nothing. *)
Theorem indent_idempotent (amount : Z) (w : Writer) :
  (_indent amount ;;; _indent amount) w = _indent amount w.
Proof.
  unfold _indent, bind, get, write_nroff, modify, ret.
  case_bool_decide as H; simpl.
  - rewrite bool_decide_eq_false_2; [done|]. by intros [].
  - rewrite bool_decide_eq_false_2; [done|]. by intros ?.
Qed.

(** X10.  Escaping is safe to repeat through the guard: a line that the
    test-and-escape idiom has produced passes through it unchanged, since
    it starts with a backslash or with the character the original line
    started with. *)
Theorem escape_if_meta_idempotent (s e : string) :
  escape_if_meta s = Some e → escape_if_meta e = Some e.
Proof.
  destruct s as [|c s]; [done|]. rewrite escape_if_meta_cons.
  intros [= <-].
  destruct (Ascii.eqb c "'") eqn:Hq; [done|].
  destruct (Ascii.eqb c ".") eqn:Hd; [done|].
  by rewrite escape_if_meta_cons, Hq, Hd.
Qed.

Lemma escape_if_meta_idempotent_witness :
  escape_if_meta "\&.profile" = Some "\&.profile".
Proof. apply (escape_if_meta_idempotent ".profile"). reflexivity. Defined.

(** ** Raw blocks and the header *)

(** The stand-in for the parent only appends to the buffer. *)
Lemma raw_one_line_appends text indent align blanklines delimiter lb :
  steps appends (raw_one_line text indent align blanklines delimiter lb).
Proof.
  intros w u w'. unfold raw_one_line, bind, get, write_nroff, modify.
  intros [= _ <-]. split; [by eexists | done].
Qed.

(** X11.  A raw block is framed: when the parent's method only appends to
    the buffer and leaves the tracker alone, the override adds the indent
    command the tracker asks for, [.nf], what the parent appends in the
    state behind it, and [.fi]; the tracker ends at the indent of the
    block, and the parent runs at indent 0 inside the frame. *)
Theorem write_raw_frame
    (parent : string → Z → string → Z → option string → bool → M unit)
    (text : string) (indent : Z) (align : string) (blanklines : Z)
    (delimiter : option string) (leading_blankline : bool)
    (w : Writer) u (w' : Writer) :
  steps appends (parent text 0%Z align blanklines delimiter leading_blankline) →
  write_raw parent text indent align blanklines delimiter leading_blankline w
  = Some (u, w') →
  ∃ v v' ls,
    buf v = buf w ++ (if bool_decide (indent = curr_indent w) then []
                      else [".in " +:+ Py.str indent]) ++ [".nf"]
    ∧ curr_indent v = indent
    ∧ parent text 0%Z align blanklines delimiter leading_blankline v
      = Some (tt, v')
    ∧ buf v' = buf v ++ ls
    ∧ buf w' = buf v' ++ [".fi"]
    ∧ curr_indent w' = indent.
Proof.
  intros Hparent. unfold write_raw.
  intros ([] & v0 & H0 & H)%bind_Some.
  apply bind_Some in H as ([] & v & H1 & H).
  apply bind_Some in H as ([] & v' & H2 & H).
  unfold write_nroff, modify in H1, H. injection H1 as <-. injection H as <-.
  destruct (Hparent _ _ _ H2) as [[ls Hls] Hci].
  exists (set_buf (buf v0 ++ [".nf"]) v0), v', ls.
  assert (buf v0 = buf w ++ (if bool_decide (indent = curr_indent w) then []
                             else [".in " +:+ Py.str indent])
          ∧ curr_indent v0 = indent) as [Hb Hc].
  { unfold _indent, bind, get, write_nroff, modify, ret in H0.
    case_bool_decide as Hne.
    - injection H0 as <-. simpl. by rewrite bool_decide_eq_false_2 by done.
    - injection H0 as <-. subst indent.
      rewrite bool_decide_eq_true_2 by done. by rewrite app_nil_r. }
  split; [by simpl; rewrite Hb, <- app_assoc|].
  split; [done|]. split; [done|]. split; [done|].
  subst w'. split; [done|]. simpl. by rewrite Hci.
Qed.

Lemma write_raw_frame_witness :
  ∃ v v' ls,
    buf v = [".in 3"; ".nf"]
    ∧ curr_indent v = 3%Z
    ∧ raw_one_line "+--+" 0%Z "left" 0%Z None true v = Some (tt, v')
    ∧ buf v' = buf v ++ ls
    ∧ buf sample_raw_end = buf v' ++ [".fi"]
    ∧ curr_indent sample_raw_end = 3%Z.
Proof.
  apply (write_raw_frame raw_one_line "+--+" 3%Z "left" 0%Z None true fresh tt
           sample_raw_end).
  - apply raw_one_line_appends.
  - reflexivity.
Defined.

(** X12.  The header is sixteen lines behind what the parent left in the
    buffer: the comment with version and time, a blank line, the eight
    settings, and the six strings of header and footer.  The comment goes
    through [write_line], so its leading dot is escaped: the line starts
    with [\&] and is no comment request of nroff any more.  The tracker
    and the ledger are left alone. *)
Theorem pre_rendering_header (parent : M Headers) (VERSION : list Z)
    (time : string) (w : Writer) (h : Headers) (w0 : Writer) :
  parent w = Some (h, w0) →
  pre_rendering parent VERSION time w
  = Some (tt, set_buf
                (buf w0
                   ++ ["\&" +:+ comment_header (join "." (map Py.str VERSION))
                                  time;
                       ""]
                   ++ settings_header
                   ++ [".ds LH " +:+ left_header h;
                       ".ds CH " +:+ center_header h;
                       ".ds RH " +:+ right_header h;
                       ".ds LF " +:+ left_footer h;
                       ".ds CF " +:+ center_footer h;
                       ".ds RF FORMFEED[Page %]"]) w0).
Proof.
  intros Hp. unfold pre_rendering, bind. rewrite Hp.
  unfold write_line, bind, lift.
  change (comment_header (join "." (map Py.str VERSION)) time)
    with (String "." (String "\" (dquote
            +:+ " automatically generated by xml2rfc v"
            +:+ join "." (map Py.str VERSION) +:+ " on " +:+ time))).
  rewrite escape_if_meta_cons.
  destruct w0 as [b o hs c e p d t wd].
  unfold _lb, target_extend, write_nroff, bind, modify, ret, settings_header.
  cbn [buf set_buf Ascii.eqb Bool.eqb]. rewrite <- !app_assoc. reflexivity.
Qed.

Lemma pre_rendering_header_witness :
  pre_rendering parent_headers [2; 4; 0]%Z "2012-01-01T00:00:00Z" fresh
  = Some (tt, set_buf sample_header_lines fresh).
Proof.
  apply (pre_rendering_header parent_headers [2; 4; 0]%Z
           "2012-01-01T00:00:00Z" fresh sample_headers fresh).
  reflexivity.
Defined.

(** ** Escaping the document tree *)

Lemma double_backslashes_inj (s1 s2 : string) :
  double_backslashes s1 = double_backslashes s2 → s1 = s2.
Proof.
  revert s2. induction s1 as [|c1 s1 IH]; intros [|c2 s2]; simpl.
  - done.
  - by destruct (Ascii.eqb c2 "\").
  - by destruct (Ascii.eqb c1 "\").
  - destruct (Ascii.eqb_spec c1 "\") as [-> | H1],
      (Ascii.eqb_spec c2 "\") as [-> | H2].
    + intros [= H]. by rewrite (IH _ H).
    + intros [= <- _]. done.
    + intros [= -> _]. done.
    + intros [= -> H]. by rewrite (IH _ H).
Qed.

Lemma double_backslashes_cons (c : ascii) (s : string) :
  double_backslashes (String c s) ≠ "".
Proof. simpl. by destruct (Ascii.eqb c "\"). Qed.

Lemma escape_field_inj (f1 f2 : option string) :
  escape_field f1 = escape_field f2 → f1 = f2.
Proof.
  destruct f1 as [[|c1 s1]|], f2 as [[|c2 s2]|]; unfold escape_field;
    try done.
  - intros H. destruct (double_backslashes_cons c2 s2). congruence.
  - intros H. destruct (double_backslashes_cons c1 s1). congruence.
  - intros H. f_equal. apply double_backslashes_inj. congruence.
Qed.

(** X13.  Escaping the backslashes of the tree loses nothing: two trees
    that are the same after [pre_indexing] were the same before, in shape
    and in every text and tail, an absent field and an empty one being
    kept apart. *)
Theorem pre_indexing_injective :
  ∀ r1 r2 : Element, pre_indexing r1 = pre_indexing r2 → r1 = r2.
Proof.
  fix IH 1. intros [t1 l1 c1] [t2 l2 c2]. simpl. intros [= Ht Hl Hc].
  apply escape_field_inj in Ht, Hl. subst. f_equal.
  revert c2 Hc. induction c1 as [|x c1 IHc]; intros [|y c2]; simpl; try done.
  intros [= Hx Hc]. f_equal; [by apply IH | by apply IHc].
Qed.

Lemma pre_indexing_injective_witness :
  sample_tree
  = Elem (Some "a\b") None
      [Elem None (Some "\\") []; Elem (Some "") (Some "c") []].
Proof. apply (pre_indexing_injective sample_tree). reflexivity. Defined.

(** ** Writing the file *)

Lemma append_assoc (a b c : string) : (a +:+ b) +:+ c = a +:+ (b +:+ c).
Proof.
  induction a as [|x a IH]; [done|].
  change (String x ((a +:+ b) +:+ c) = String x (a +:+ (b +:+ c))).
  by rewrite IH.
Qed.

Lemma append_nil_r (a : string) : a +:+ "" = a.
Proof.
  induction a as [|x a IH]; [done|].
  change (String x (a +:+ "") = String x a). by rewrite IH.
Qed.

Lemma rstrip_blanks_ends (s : string) : ends_blank (rstrip_blanks s) = false.
Proof.
  induction s as [|c s IH]; simpl; [done|].
  destruct (rstrip_blanks s) as [|c' r] eqn:Hr.
  - destruct (is_blank_char c) eqn:Hc; simpl; [done | by rewrite Hc].
  - done.
Qed.

Lemma rstrip_blanks_rest (s : string) :
  ∃ t, all_blank t = true ∧ s = rstrip_blanks s +:+ t.
Proof.
  induction s as [|c s (t & Ht & Hs)]; simpl.
  - by exists "".
  - destruct (rstrip_blanks s) as [|c' r] eqn:Hr.
    + change ("" +:+ t) with t in Hs. subst t.
      destruct (is_blank_char c) eqn:Hc.
      * exists (String c s). simpl. by rewrite Hc, Ht.
      * by exists s.
    + exists t. split; [done|].
      change (String c s = String c (String c' r +:+ t)). by rewrite <- Hs.
Qed.

Lemma write_records (lines : list string) (file : string) :
  fold_left (λ file line, file +:+ rstrip_blanks line +:+ newline) lines file
  = file +:+ records (map rstrip_blanks lines).
Proof.
  revert file. induction lines as [|l lines IH]; intros file.
  - simpl. by rewrite append_nil_r.
  - cbn [fold_left map]. rewrite IH. unfold records. cbn [fold_right].
    by rewrite !append_assoc.
Qed.

(** X14.  The file gets one record per line of the output, behind what it
    held before, each ended by a line feed; a record is its line without
    the spaces and tabs at its end: it does not end in one, and what was
    cut from the line is nothing but spaces and tabs.  The writer is left
    as it is. *)
Theorem write_to_file_records (file : string) (w : Writer) :
  ∃ recs,
    write_to_file file w = Some (file +:+ records recs, w)
    ∧ Forall2 (λ line r, ends_blank r = false
                         ∧ ∃ t, all_blank t = true ∧ line = r +:+ t)
        (output w) recs.
Proof.
  exists (map rstrip_blanks (output w)). split.
  - unfold write_to_file, bind, get, ret. by rewrite write_records.
  - induction (output w) as [|l ls IH]; simpl; constructor; [|done].
    split; [apply rstrip_blanks_ends | apply rstrip_blanks_rest].
Qed.

(** ** Pages without forcing hints *)

Lemma break_wanted_plain (w : Writer) (pl : Z) (line : string) (n : Z)
    (t : string) :
  autobreaks (pis w) ≠ "yes" → t ≠ "break" → t ≠ "raw" →
  break_wanted w pl line (n, t) = false.
Proof.
  intros Ha Hb Hr. unfold break_wanted.
  apply String.eqb_neq in Ha, Hb, Hr.
  destruct (String.eqb (Py.strip line) ""); by rewrite Ha, Hb, Hr.
Qed.

Lemma hint_step_plain (w : Writer) (i : nat) (line : string)
    (st : list string * Z) :
  no_forcing w → hint_step w i line st = st.
Proof.
  intros [Ha Hh]. unfold hint_step.
  destruct (break_hints w !! i) as [[n t]|] eqn:Hi; [|done].
  destruct (Hh _ _ _ Hi). by rewrite break_wanted_plain.
Qed.

Lemma paginate_plain (w : Writer) (lines : list string) (i : nat)
    (out : list string) (pl : Z) :
  no_forcing w →
  (0 ≤ pl ≤ 55)%Z → (pl = 0%Z ↔ i = 0) →
  (∃ k : Z, Z.of_nat i = pl + 55 * k)%Z →
  (paginate w i lines (out, pl)).1
  = out ++ with_breaks (page_marks i (length lines)) lines.
Proof.
  intros Hw. revert i out pl.
  induction lines as [|line lines IH]; intros i out pl Hpl H0 [k Hk].
  - simpl. by rewrite app_nil_r.
  - cbn [paginate length page_marks seq map with_breaks].
    unfold page_step. rewrite hint_step_plain by done.
    fold (page_marks (S i) (length lines)).
    destruct (decide (pl + 1 ≤ 55)%Z) as [Hfit | Hfull].
    + rewrite emit_step_fits by done.
      rewrite IH; [| lia | lia | exists k; lia].
      rewrite bool_decide_eq_false_2; [by rewrite <- app_assoc|].
      intros [Hi Hm]. apply Nat.Div0.mod_divides in Hm as [c Hc]. lia.
    + rewrite emit_step_full by lia.
      rewrite IH; [| lia | lia | exists (k + 1)%Z; lia].
      rewrite bool_decide_eq_true_2; [by rewrite <- app_assoc|].
      split; [lia|]. apply Nat.Div0.mod_divides. exists (Z.to_nat (k + 1)). lia.
Qed.

(** X15.  When automatic breaks are off and no hint is of class [break] or
    [raw], the hints have no effect: the output is the buffer cut in pages
    of exactly 55 lines, with a break in front of the lines 55, 110, 165
    and so on, and before no other line. *)
Theorem post_rendering_plain_pages (w : Writer) :
  no_forcing w →
  post_rendering w
  = Some (tt, set_output
                (output w
                   ++ with_breaks (page_marks 0 (length (buf w))) (buf w)) w).
Proof.
  intros Hw. unfold post_rendering, modify. do 3 f_equal.
  apply paginate_plain; [done | lia | done | exists 0%Z; lia].
Qed.

Lemma sample_plain_no_forcing : no_forcing sample_plain.
Proof.
  split; [done|]. intros i n t H.
  change (break_hints sample_plain)
    with ({[ 50 := (10%Z, "txt") ]} : gmap nat (Z * string)) in H.
  apply lookup_singleton_Some in H as [_ [= <- <-]]. done.
Qed.

Lemma post_rendering_plain_pages_witness :
  post_rendering sample_plain
  = Some (tt, set_output
                (replicate 55 "text" ++ [".bp"] ++ replicate 5 "text")
                sample_plain).
Proof.
  exact (post_rendering_plain_pages sample_plain sample_plain_no_forcing).
Defined.

(** ** Forced breaks and hints outside the buffer *)

Lemma page_step_out (w : Writer) (i : nat) (line : string)
    (out : list string) (pl : Z) :
  page_step w i line (out, pl)
  = (out ++ (page_step w i line ([], pl)).1,
     (page_step w i line ([], pl)).2).
Proof.
  unfold page_step, hint_step, emit_step.
  destruct (break_hints w !! i) as [hint|]; simpl.
  - destruct (break_wanted w pl line hint); simpl;
      try case_bool_decide; simpl; by rewrite <- ?app_assoc.
  - case_bool_decide; simpl; by rewrite <- ?app_assoc.
Qed.

Lemma paginate_out (w : Writer) (lines : list string) (i : nat)
    (out : list string) (pl : Z) :
  (paginate w i lines (out, pl)).1
  = out ++ (paginate w i lines ([], pl)).1.
Proof.
  revert i out pl. induction lines as [|line lines IH]; intros i out pl.
  - simpl. by rewrite app_nil_r.
  - cbn [paginate]. rewrite page_step_out.
    destruct (page_step w i line ([], pl)) as [o1 p1]. simpl.
    rewrite IH, (IH _ o1). by rewrite app_assoc.
Qed.

(** X16.  A hint of class [break] at a line of the buffer always breaks the
    page there, whatever its line count, the fill of the page and the
    settings: the output is the pagination of the lines before it, the
    break, the line, and the pagination of the lines behind it, which
    starts with one line on the page. *)
Theorem post_rendering_forced_break (w : Writer) (i : nat) (n : Z)
    (line : string) :
  break_hints w !! i = Some (n, "break") →
  buf w !! i = Some line →
  post_rendering w
  = Some (tt, set_output
                ((paginate w 0 (take i (buf w)) (output w, 0%Z)).1
                   ++ [".bp"; line]
                   ++ (paginate w (S i) (drop (S i) (buf w)) ([], 1%Z)).1)
                w).
Proof.
  intros Hh Hl. unfold post_rendering, modify. do 3 f_equal.
  rewrite <- (take_drop_middle _ _ _ Hl) at 1.
  rewrite paginate_app. cbn [paginate].
  assert (0 + length (take i (buf w)) = i) as ->.
  { rewrite length_take. apply lookup_lt_Some in Hl. lia. }
  destruct (paginate w 0 (take i (buf w)) (output w, 0%Z)) as [o1 p1].
  unfold page_step, hint_step. rewrite Hh. cbn [snd fst].
  assert (break_wanted w p1 line (n, "break") = true) as ->.
  { unfold break_wanted. by destruct (String.eqb (Py.strip line) ""). }
  rewrite emit_step_fits by lia. rewrite paginate_out. simpl.
  by rewrite <- !app_assoc.
Qed.

Lemma post_rendering_forced_break_witness :
  post_rendering sample_overlap
  = Some (tt, set_output ["a"; ".bp"; "b"; "c"] sample_overlap).
Proof.
  exact (post_rendering_forced_break sample_overlap 1 0%Z "b" eq_refl eq_refl).
Defined.

Lemma paginate_ext (w1 w2 : Writer) (lines : list string) (i : nat)
    (st : list string * Z) :
  autobreaks (pis w1) = autobreaks (pis w2) →
  (∀ j, i ≤ j < i + length lines →
        break_hints w1 !! j = break_hints w2 !! j) →
  paginate w1 i lines st = paginate w2 i lines st.
Proof.
  intros Ha. revert i st.
  induction lines as [|line lines IH]; intros i st Hh; [done|].
  cbn [paginate length] in *.
  assert (page_step w1 i line st = page_step w2 i line st) as ->.
  { unfold page_step, hint_step. rewrite (Hh i) by lia.
    destruct (break_hints w2 !! i) as [hint|]; [|done].
    unfold break_wanted. by rewrite Ha. }
  apply IH. intros j Hj. apply Hh. lia.
Qed.

(** X17.  The pagination reads the ledger only at the offsets of buffer
    lines: two writers with the same buffer, output and setting whose
    ledgers agree below the length of the buffer get the same output.  A
    hint keyed at the length of the buffer or behind it, as an empty block
    at the end of the document leaves one, has no effect. *)
Theorem post_rendering_hints_in_range (w1 w2 : Writer) :
  buf w1 = buf w2 →
  output w1 = output w2 →
  autobreaks (pis w1) = autobreaks (pis w2) →
  (∀ i, i < length (buf w1) → break_hints w1 !! i = break_hints w2 !! i) →
  (λ r, output r.2) <$> post_rendering w1
  = (λ r, output r.2) <$> post_rendering w2.
Proof.
  intros Hb Ho Ha Hh. unfold post_rendering, modify. simpl.
  rewrite <- Hb, <- Ho. do 2 f_equal.
  apply paginate_ext; [done|]. intros j Hj. apply Hh. lia.
Qed.

Lemma post_rendering_hints_in_range_witness :
  (λ r, output r.2) <$> post_rendering sample_overlap_late
  = (λ r, output r.2) <$> post_rendering sample_overlap.
Proof.
  apply (post_rendering_hints_in_range sample_overlap_late sample_overlap);
    [reflexivity | reflexivity | reflexivity |].
  intros [|[|[|i]]] Hi; [reflexivity | reflexivity | reflexivity |].
  simpl in Hi. lia.
Defined.

(** ** A bullet without text *)

(** X18.  A call without text but with a bullet writes the bullet alone,
    whatever buffer it is given: the temporary indent at the base indent
    goes to the writer's buffer, and the leading line and the bullet as it
    is go around it, or behind a non-empty list of the caller.  The bullet
    does not pass through the escaper, so a bullet that starts with a dot
    or a quote is written as a command line; the wrapper is not called, the
    call cannot raise, and the tracker is left alone. *)
Theorem write_text_bullet_only (wrap : string → bool → bool → list string)
    indent sub_indent bullet align leading_blankline buf_arg strip edit fse
    (w : Writer) :
  has_bullet bullet = true →
  ∃ ext' w',
    write_text wrap "" indent sub_indent bullet align leading_blankline
      buf_arg strip edit fse w = Some (ext', w')
    ∧ curr_indent w' = curr_indent w
    ∧ match buf_arg with
      | Some (l :: ls) =>
          buf w' = buf w ++ [".ti " +:+ Py.str indent]
          ∧ ext' = Some ((l :: ls) ++ lead_lines w leading_blankline edit
                           ++ [bullet])
      | _ =>
          buf w' = buf w ++ lead_lines w leading_blankline edit
                     ++ [".ti " +:+ Py.str indent; bullet]
          ∧ ext' = None
      end.
Proof.
  intros Hb. rewrite write_text_effect. simpl. do 2 eexists.
  split; [done|]. split; [done|].
  destruct buf_arg as [[|l ls]|]; simpl;
    unfold control_lines, body_lines; simpl; rewrite Hb; simpl;
    by rewrite <- ?app_assoc.
Qed.

Lemma write_text_bullet_only_witness :
  ∃ ext' w',
    write_text wrap_narrow "" 3 0 ".1" "left" false (Some ["+--+"]) true false
      true fresh = Some (ext', w')
    ∧ curr_indent w' = curr_indent fresh
    ∧ buf w' = buf fresh ++ [".ti 3"]
    ∧ ext' = Some (["+--+"] ++ lead_lines fresh false false ++ [".1"]).
Proof.
  apply (write_text_bullet_only wrap_narrow 3 0 ".1" "left" false
           (Some ["+--+"]) true false true fresh).
  reflexivity.
Defined.

(** ** Keeping URLs together *)

Lemma startswith_prefix (p s : string) :
  Py.startswith s p = true → ∃ r, s = p +:+ r.
Proof.
  revert s. induction p as [|a p IH]; intros s.
  - intros _. by exists s.
  - destruct s as [|b s]; [done|].
    change (Py.startswith (String b s) (String a p))
      with (Ascii.eqb a b && Py.startswith s p).
    intros [->%Ascii.eqb_eq [r ->]%IH]%andb_true_iff. by exists r.
Qed.

Lemma startswith_other (a b : ascii) (p s : string) :
  Ascii.eqb a b = false → Py.startswith (String b s) (String a p) = false.
Proof.
  intros H.
  change (Py.startswith (String b s) (String a p))
    with (Ascii.eqb a b && Py.startswith s p).
  by rewrite H.
Qed.

Lemma sub_http_match (r : string) :
  sub_http 0 ("http://" +:+ r) = "\%http://" +:+ sub_http 0 r.
Proof. reflexivity. Qed.

Lemma count_http_match (r : string) :
  count_http ("http://" +:+ r) = S (count_http r).
Proof.
  change ("http://" +:+ r)
    with (String "h" (String "t" (String "t" (String "p" (String ":"
           (String "/" (String "/" r))))))).
  cbn [count_http].
  change (Py.startswith (String "h" _) "http://") with true.
  by rewrite !(startswith_other "h") by done.
Qed.

Lemma urlkeep_count (n : nat) (s : string) :
  String.length s ≤ n →
  String.length (sub_http 0 s) = String.length s + 2 * count_http s
  ∧ (count_http s = 0 → sub_http 0 s = s).
Proof.
  revert s. induction n as [|n IH]; intros [|c s] Hn; simpl in Hn;
    try done; try lia.
  destruct (Py.startswith (String c s) "http://") eqn:Hs.
  - destruct (startswith_prefix _ _ Hs) as [r Hr]. rewrite Hr.
    rewrite sub_http_match, count_http_match.
    assert (String.length s = 6 + String.length r) as Hlen.
    { change ("http://" +:+ r) with (String "h" ("ttp://" +:+ r)) in Hr.
      injection Hr as _ ->. reflexivity. }
    destruct (IH r ltac:(lia)) as [IHl _].
    split; [|done].
    change (S (S (S (S (S (S (S (S (S (String.length (sub_http 0 r))))))))))
            = S (S (S (S (S (S (S (String.length r)))))))
              + 2 * S (count_http r)).
    lia.
  - cbn [sub_http count_http]. rewrite Hs.
    destruct (IH s ltac:(lia)) as [IHl IHe].
    split; [simpl; lia|].
    intros H0. simpl in H0. by rewrite (IHe H0).
Qed.

(** X19.  [urlkeep] puts the two characters of the no-break escape in front
    of every [http://] of the text and changes nothing else: the result is
    longer by two for each place at which [http://] starts, and a text
    without one comes back as it is. *)
Theorem urlkeep_length (text : string) :
  String.length (urlkeep text)
  = String.length text + 2 * count_http text
  ∧ (count_http text = 0 → urlkeep text = text).
Proof. apply (urlkeep_count (String.length text)). lia. Qed.

(** ** The ledger of a whole render *)

#[global] Instance keeps_hints_preorder : PreOrder keeps_hints.
Proof.
  split.
  - intros w. split; [exists []; by rewrite app_nil_r | done].
  - intros w1 w2 w3 ([l1 H1] & Ho1 & Hp1 & Hh1) ([l2 H2] & Ho2 & Hp2 & Hh2).
    split; [exists (l1 ++ l2); by rewrite H2, H1, app_assoc|].
    split; [congruence|]. split; [congruence | auto].
Qed.

Lemma keeps_hints_set_buf (ls : list string) (w : Writer) :
  keeps_hints w (set_buf (buf w ++ ls) w).
Proof.
  split; [by exists ls|]. split; [done|]. split; [done|].
  intros H k n t Hk. destruct (H k n t Hk) as (? & ? & ?).
  split; [done|]. split; [done|]. simpl. rewrite length_app. lia.
Qed.

Lemma keeps_hints_set_curr_indent (a : Z) (w : Writer) :
  keeps_hints w (set_curr_indent a w).
Proof. split; [exists []; by rewrite app_nil_r | done]. Qed.

Ltac keeps_hints_update :=
  apply (steps_modify keeps_hints); intros ?;
  first [ apply keeps_hints_set_buf | apply keeps_hints_set_curr_indent ].

Lemma keeps_hints_text (w : Writer) txt indent sub_indent bullet align
    leading_blankline buf_arg edit par :
  keeps_hints w
    (text_state w txt indent sub_indent bullet align leading_blankline
       buf_arg edit par).
Proof.
  split; [by eexists|]. split; [done|]. split; [done|].
  intros H k n t. simpl.
  destruct (decide (k = length (buf w))) as [-> | Hne].
  - rewrite lookup_insert_eq. intros [= <- <-].
    split; [done|]. rewrite length_app. lia.
  - rewrite lookup_insert_ne by done. intros Hk.
    destruct (H k n t Hk) as (? & ? & ?).
    split; [done|]. split; [done|]. rewrite length_app. lia.
Qed.

Lemma keeps_hints_call (wrap : string → bool → bool → list string)
    (c : Call) :
  steps keeps_hints (call wrap c).
Proof.
  destruct c; simpl.
  - steps_go keeps_hints_update.
  - steps_go keeps_hints_update.
  - unfold write_line. steps_go keeps_hints_update.
  - unfold _vspace. steps_go keeps_hints_update.
  - intros w u w' (e & w1 & H & [= _ <-])%bind_Some.
    rewrite write_text_effect in H.
    destruct (paragraph wrap txt bullet strip fix_sentence_endings); [|done].
    simpl in H. injection H as _ <-. apply keeps_hints_text.
  - unfold write_heading, write_line. steps_go keeps_hints_update.
Qed.

Lemma keeps_hints_render (wrap : string → bool → bool → list string)
    (cs : list Call) :
  steps keeps_hints (render wrap cs).
Proof.
  induction cs as [|c cs IH]; simpl.
  - apply (steps_ret keeps_hints).
  - apply (steps_bind keeps_hints); [apply keeps_hints_call | by intros ?].
Qed.

Lemma hints_within_init (width : Z) (pis : Pis) (defaults : Defaults)
    (entries : list string) :
  hints_within (init width pis defaults entries).
Proof. intros k n t. simpl. by rewrite lookup_empty. Qed.

(** X20.  Whatever blocks, headings, lines and commands a render writes
    into a new writer, its blocks going to the writer's buffer or to a list
    of the caller, the ledger it leaves describes the buffer: every hint is
    of class [txt], counts no negative number of lines, and its block, from
    its key on, ends within the buffer.  No method of this writer records a
    hint of class [raw] or [break]; those come from the parent. *)
Theorem render_hints_within (wrap : string → bool → bool → list string)
    (width : Z) (pis : Pis) (defaults : Defaults) (entries : list string)
    (cs : list Call) (w' : Writer) :
  render wrap cs (init width pis defaults entries) = Some (tt, w') →
  ∀ k n t, break_hints w' !! k = Some (n, t) →
    t = "txt" ∧ (0 ≤ n)%Z
    ∧ (Z.of_nat k + n ≤ Z.of_nat (length (buf w')))%Z.
Proof.
  intros H. destruct (keeps_hints_render wrap cs _ _ _ H) as (_ & _ & _ & Hh).
  apply Hh, hints_within_init.
Qed.

Lemma render_hints_within_witness :
  "txt" = "txt" ∧ (0 ≤ 1)%Z
  ∧ (Z.of_nat 8 + 1 ≤ Z.of_nat (length (buf sample_calls_end)))%Z.
Proof.
  apply (render_hints_within wrap_narrow 72 pis0 defaults0 [] sample_calls
           sample_calls_end eq_refl 8 1%Z "txt").
  reflexivity.
Defined.

(** X21.  From render to pages: when automatic breaks are switched off, the
    output of a document that a render wrote into a new writer, its blocks
    going to the writer's buffer or to a list of the caller, is its buffer
    in pages of exactly 55 lines, whatever the render recorded in the
    ledger. *)
Theorem render_plain_pages (wrap : string → bool → bool → list string)
    (width : Z) (pis : Pis) (defaults : Defaults) (entries : list string)
    (cs : list Call) (w' : Writer) :
  autobreaks pis ≠ "yes" →
  render wrap cs (init width pis defaults entries) = Some (tt, w') →
  post_rendering w'
  = Some (tt, set_output
                (with_breaks (page_marks 0 (length (buf w'))) (buf w')) w').
Proof.
  intros Ha H.
  destruct (keeps_hints_render wrap cs _ _ _ H) as (_ & Ho & Hp & Hh).
  specialize (Hh (hints_within_init _ _ _ _)).
  unfold post_rendering, modify. do 3 f_equal.
  rewrite Ho. simpl.
  apply (paginate_plain w' (buf w') 0 [] 0%Z);
    [| lia | done | exists 0%Z; lia].
  split; [by rewrite Hp|].
  intros i n t Hi. destruct (Hh i n t Hi) as (-> & _). done.
Qed.

Lemma render_plain_pages_witness :
  post_rendering sample_long_end
  = Some (tt, set_output
                ([""; ".in 3"; "Abstract"; ".in 5"] ++ replicate 51 "text"
                   ++ [".bp"] ++ replicate 7 "text")
                sample_long_end).
Proof.
  apply (render_plain_pages wrap_narrow 72
           {| editing := "no"; autobreaks := "no" |} defaults0 []
           sample_long_calls sample_long_end).
  - done.
  - reflexivity.
Defined.
